(** * Travel itinerary planning chatbot: flight tool server and orchestration graph

  A shallow embedding of [flights_mcp.py] and [travel_planner_chatbot.py].

  - [Py]: JSON values as Python sees them, Python exceptions as an error
    type carrying the source line that raised them, and the error monad
    [M] that code which can raise runs in.
  - [Flights]: the airport lookup and the two flight tools, over the HTTP
    request and the SDK call they make.
  - [Chatbot]: the tool list, the model bound to it, the graph of the chat
    node and the tool node, and the listing of saved threads.  Code of this
    module runs in [G], against a world that records the node runs, the
    model invocations and the rows of the checkpoint database.  What the
    graph, tool node and checkpointer objects do is the work of the
    libraries the file imports; they are modelled by their contracts, as
    far as the file uses them.
  - Properties: C1 to C10 of the specification, and X1 to X18, further
    properties of the two files. *)

From Stdlib Require Import ZArith Ascii String.
From stdpp Require Import base option list sorting strings pretty gmap sets.

Local Open Scope string_scope.
Set Warnings "-register-all".

(** ** Python values, exceptions and the operations the sources use *)

Module Py.

(** Exceptions.  [ResponseError] is the flight SDK's error, with its string
    form; the built-in ones carry the line of the source file that raised
    them; [ValueError] and [GraphRecursionError] are raised by the graph
    library; [OtherError] stands for any other [Exception] of a library. *)
Inductive exn : Type :=
| ResponseError (str : string)
| KeyError (line : nat)
| IndexError (line : nat)
| TypeError (line : nat)
| AttributeError (line : nat)
| ValueError (str : string)
| GraphRecursionError
| OtherError (str : string).

(** [str(e)], as the warning of [load_mcp_tools] and the error results of the
    tool node print it. *)
Definition exn_str (e : exn) : string :=
  match e with
  | ResponseError str | ValueError str | OtherError str => str
  | KeyError _ => "KeyError"
  | IndexError _ => "list index out of range"
  | TypeError _ => "TypeError"
  | AttributeError _ => "AttributeError"
  | GraphRecursionError => "Recursion limit reached without hitting a stop condition."
  end.

(** JSON values as Python sees them after [response.json()].  A dict keeps
    its items in insertion order.  Numbers are integers: no code path of
    the two files computes with a float. *)
Inductive value : Type :=
| VNone
| VBool (b : bool)
| VInt (n : Z)
| VStr (s : string)
| VList (l : list value)
| VDict (d : list (string * value)).

Definition M (A : Type) : Type := exn + A.

Definition ret {A} (x : A) : M A := inr x.
Definition raise {A} (e : exn) : M A := inl e.
Definition bind {A B} (m : M A) (f : A -> M B) : M B :=
  match m with
  | inl e => inl e
  | inr x => f x
  end.

Declare Scope py_scope.
Delimit Scope py_scope with py.
Notation "'let*' x ':=' m 'in' k" := (bind m (fun x => k))
  (at level 10, x name, m at level 100, k at level 200) : py_scope.

(** [for x in xs: body], the body run for its effect on an accumulator. *)
Fixpoint for_each {A S} (xs : list A) (body : S -> A -> M S) (acc : S) : M S :=
  match xs with
  | [] => ret acc
  | x :: rest => bind (body acc x) (for_each rest body)
  end.

(** [[f(x) for x in xs]], left to right; the first exception propagates. *)
Fixpoint map_m {A B} (f : A -> M B) (xs : list A) : M (list B) :=
  match xs with
  | [] => ret []
  | x :: rest => bind (f x) (fun y => bind (map_m f rest) (fun ys => ret (y :: ys)))
  end.

(** Truth value of an object ([if not data], [if not offers]). *)
Definition truthy (v : value) : bool :=
  match v with
  | VNone => false
  | VBool b => b
  | VInt n => negb (n =? 0)%Z
  | VStr s => negb (String.eqb s "")
  | VList l => match l with [] => false | _ => true end
  | VDict d => match d with [] => false | _ => true end
  end.

Fixpoint dict_lookup (d : list (string * value)) (k : string) : option value :=
  match d with
  | [] => None
  | (k', v) :: rest => if String.eqb k' k then Some v else dict_lookup rest k
  end.

(** [seq[i]] on a sequence of length [len]: negative indices count from the
    end, anything outside raises [IndexError]. *)
Definition seq_index {A} (line : nat) (l : list A) (i : Z) : M A :=
  let len := Z.of_nat (length l) in
  let j := if (i <? 0)%Z then (len + i)%Z else i in
  if ((0 <=? j) && (j <? len))%Z
  then match l !! Z.to_nat j with
       | Some x => ret x
       | None => raise (IndexError line)
       end
  else raise (IndexError line).

(** [v[k]] with a string key. *)
Definition getitem (line : nat) (v : value) (k : string) : M value :=
  match v with
  | VDict d => match dict_lookup d k with
               | Some x => ret x
               | None => raise (KeyError line)
               end
  | _ => raise (TypeError line)
  end.

(** [v[i]] with an integer index. *)
Definition getindex (line : nat) (v : value) (i : Z) : M value :=
  match v with
  | VList l => seq_index line l i
  | VStr s =>
      bind (seq_index line (list_ascii_of_string s) i)
           (fun c => ret (VStr (String c EmptyString)))
  | VDict _ => raise (KeyError line)
  | _ => raise (TypeError line)
  end.

(** [v.get(k, default)]: only a dict has the method. *)
Definition get (line : nat) (v : value) (k : string) (dflt : value) : M value :=
  match v with
  | VDict d => ret (default dflt (dict_lookup d k))
  | _ => raise (AttributeError line)
  end.

(** Iteration ([for x in v], [sorted(v, ...)]): a list yields its items, a
    dict its keys, a string its characters; the rest is not iterable. *)
Definition iter (line : nat) (v : value) : M (list value) :=
  match v with
  | VList l => ret l
  | VDict d => ret (map (fun kv => VStr (fst kv)) d)
  | VStr s => ret (map (fun c => VStr (String c EmptyString)) (list_ascii_of_string s))
  | _ => raise (TypeError line)
  end.

(** [str.lower()] and [str.strip()] as they act on ASCII text: the letters
    A to Z have a lower case, and the blanks are the characters 9 to 13 and
    28 to 32.  On other text Python goes by the Unicode tables, which give
    more characters a lower case and count more characters as blanks. *)
Definition lower_ascii (c : ascii) : ascii :=
  let n := nat_of_ascii c in
  if (65 <=? n)%nat && (n <=? 90)%nat then ascii_of_nat (n + 32) else c.

Fixpoint str_lower (s : string) : string :=
  match s with
  | EmptyString => EmptyString
  | String c rest => String (lower_ascii c) (str_lower rest)
  end.

Definition is_space (c : ascii) : bool :=
  let n := nat_of_ascii c in
  ((9 <=? n)%nat && (n <=? 13)%nat) || ((28 <=? n)%nat && (n <=? 32)%nat).

Fixpoint lstrip (l : list ascii) : list ascii :=
  match l with
  | c :: rest => if is_space c then lstrip rest else l
  | [] => []
  end.

Definition str_strip (s : string) : string :=
  string_of_list_ascii (rev (lstrip (rev (lstrip (list_ascii_of_string s))))).

(** Text all of whose characters are ASCII ones, and JSON values that hold
    no other text. *)
Definition is_ascii (s : string) : bool :=
  forallb (fun c => (nat_of_ascii c <? 128)%nat) (list_ascii_of_string s).

Fixpoint ascii_value (v : value) : bool :=
  match v with
  | VNone | VBool _ | VInt _ => true
  | VStr s => is_ascii s
  | VList l => forallb ascii_value l
  | VDict d => forallb (fun kv => is_ascii (fst kv) && ascii_value (snd kv)) d
  end.

(** [v.lower()] on a value fetched from JSON: only a string has it. *)
Definition lower (line : nat) (v : value) : M string :=
  match v with
  | VStr s => ret (str_lower s)
  | _ => raise (AttributeError line)
  end.

(** [needle in hay] on strings. *)
Fixpoint str_contains (needle hay : string) : bool :=
  String.prefix needle hay ||
  match hay with
  | EmptyString => false
  | String _ rest => str_contains needle rest
  end.

(** [sorted(items, key=..., reverse=True)] on already computed integer
    keys: stable, so items with equal keys keep their original order. *)
Fixpoint insert_desc {A} (k : Z) (x : A) (l : list (Z * A)) : list (Z * A) :=
  match l with
  | [] => [(k, x)]
  | (k', y) :: rest =>
      if (k' <=? k)%Z then (k, x) :: l else (k', y) :: insert_desc k x rest
  end.

Fixpoint sorted_desc {A} (l : list (Z * A)) : list (Z * A) :=
  match l with
  | [] => []
  | (k, x) :: rest => insert_desc k x (sorted_desc rest)
  end.

(** [try: body  except ResponseError as error: handler(str(error))];
    every other exception passes through. *)
Definition try_except_ResponseError {A} (body : M A) (handler : string -> M A) : M A :=
  match body with
  | inl (ResponseError str) => handler str
  | other => other
  end.

(** The source line an exception of the built-in kinds was raised at. *)
Definition exn_line (e : exn) : option nat :=
  match e with
  | KeyError line | IndexError line | TypeError line | AttributeError line => Some line
  | ResponseError _ | ValueError _ | GraphRecursionError | OtherError _ => None
  end.

(** [e] is an exception of a built-in kind raised between two lines. *)
Definition raised_between (first last : nat) (e : exn) : Prop :=
  exists line, exn_line e = Some line /\ (first <= line <= last)%nat.

End Py.

(** ** [flights_mcp.py]: the flight tool server *)

Module Flights.
Import Py.
Local Open Scope py_scope.

(** What the module reaches outside itself.
    - [requests_get location]: the airport search request of line 31 with
      [params = {"query": location}].  The outer result is [requests.get]
      itself (it can raise), the inner one is [response.json()].
    - [flight_offers_search_get kwargs]: the SDK call
      [amadeus.shopping.flight_offers_search.get] with keyword arguments
      [kwargs], giving
      [response.data] or raising. *)
Record Env : Type := {
  requests_get : string -> M (M value);
  flight_offers_search_get : list (string * value) -> M value
}.

(** Lines 43-58, the closure [airport_score] over [query]. *)
Definition airport_score (query : string) (item : value) : M Z :=
  let* presentation := get 44 item "presentation" (VDict []) in
  let* title_v := get 44 presentation "title" (VStr "") in
  let* title := lower 44 title_v in
  let* presentation' := get 45 item "presentation" (VDict []) in
  let* suggestion_v := get 45 presentation' "suggestionTitle" (VStr "") in
  let* suggestion := lower 45 suggestion_v in
  let score := 0%Z in
  let score := if str_contains query title then (score + 5)%Z else score in
  let score := if str_contains query suggestion then (score + 5)%Z else score in
  let* navigation := get 55 item "navigation" (VDict []) in
  let* entity := get 55 navigation "entityType" VNone in
  let score :=
    match entity with
    | VStr "AIRPORT" => (score + 2)%Z
    | _ => score
    end in
  ret score.

(** Lines 18-62.  The [try] of lines 33-36 covers [response.json()] and the
    [.get] on its result only; the request itself is outside it. *)
Definition get_airport_code (env : Env) (location : string) : M value :=
  let* response := requests_get env location in
  match (let* body := response in get 34 body "data" (VList [])) with
  | inl _ => ret VNone
  | inr data =>
      if negb (truthy data) then ret VNone
      else
        let query := str_strip (str_lower location) in
        let* items := iter 60 data in
        let* keys := map_m (airport_score query) items in
        let* best_airport := seq_index 60 (map snd (sorted_desc (zip keys items))) 0 in
        let* sky_id := get 61 best_airport "skyId" VNone in
        ret sky_id
  end.

(** Lines 64-116.  The two airport lookups of line 67 stand before the
    [try]; the SDK call and the summary loop are inside it. *)
Definition search_flights (env : Env) (origin destination departure_date : string)
    (num_adults : Z) : M value :=
  let* origin := get_airport_code env origin in
  let* destination := get_airport_code env destination in
  try_except_ResponseError
    (let* offers :=
       flight_offers_search_get env
         [("originLocationCode", origin);
          ("destinationLocationCode", destination);
          ("departureDate", VStr departure_date);
          ("adults", VInt num_adults);
          ("max", VInt 5)] in
     let* offer_list := iter 82 offers in
     let* summarized_offers :=
       for_each offer_list
         (fun summarized_offers offer =>
            let* itineraries := getitem 83 offer "itineraries" in
            let* itinerary0 := getindex 83 itineraries 0 in
            let* itinerary := getitem 83 itinerary0 "segments" in
            let* segment := getindex 84 itinerary 0 in
            let* dep := getitem 86 segment "departure" in
            let* departure := getitem 86 dep "iataCode" in
            let* arr := getitem 87 segment "arrival" in
            let* arrival := getitem 87 arr "iataCode" in
            let* dep' := getitem 88 segment "departure" in
            let* dep_time := getitem 88 dep' "at" in
            let* arr' := getitem 89 segment "arrival" in
            let* arr_time := getitem 89 arr' "at" in
            let* carrier := getitem 90 segment "carrierCode" in
            let* itineraries' := getitem 91 offer "itineraries" in
            let* itinerary0' := getindex 91 itineraries' 0 in
            let* duration := get 91 itinerary0' "duration" VNone in
            let* price_d := get 93 offer "price" (VDict []) in
            let* price := get 93 price_d "total" VNone in
            let* price_d' := get 94 offer "price" (VDict []) in
            let* currency := get 94 price_d' "currency" VNone in
            ret (summarized_offers ++
                 [VDict [("airline", carrier);
                         ("from", departure);
                         ("to", arrival);
                         ("departure_time", dep_time);
                         ("arrival_time", arr_time);
                         ("duration", duration);
                         ("total_price", price);
                         ("currency_code", currency)]])%list)
         [] in
     ret (VDict [("origin", origin);
                 ("destination", destination);
                 ("departure_date", VStr departure_date);
                 ("num_adults", VInt num_adults);
                 ("num_results", VInt (Z.of_nat (length summarized_offers)));
                 ("flights", VList summarized_offers)]))
    (fun error_str => ret (VDict [("error", VStr error_str)])).

(** Lines 118-159. *)
Definition get_cheapest_flight (env : Env) (origin destination : string) : M value :=
  let* origin := get_airport_code env origin in
  let* destination := get_airport_code env destination in
  try_except_ResponseError
    (let* offers :=
       flight_offers_search_get env
         [("originLocationCode", origin);
          ("destinationLocationCode", destination);
          ("max", VInt 1);
          ("sort", VStr "price")] in
     if negb (truthy offers) then
       ret (VDict [("message", VStr "No flights found.")])
     else
       let* offer := getindex 134 offers 0 in
       let* itineraries := getitem 135 offer "itineraries" in
       let* itinerary0 := getindex 135 itineraries 0 in
       let* itinerary := getitem 135 itinerary0 "segments" in
       let* segment := getindex 136 itinerary 0 in
       let* dep := getitem 138 segment "departure" in
       let* departure := getitem 138 dep "iataCode" in
       let* arr := getitem 139 segment "arrival" in
       let* arrival := getitem 139 arr "iataCode" in
       let* dep' := getitem 140 segment "departure" in
       let* dep_time := getitem 140 dep' "at" in
       let* arr' := getitem 141 segment "arrival" in
       let* arr_time := getitem 141 arr' "at" in
       let* carrier := getitem 142 segment "carrierCode" in
       let* itineraries' := getitem 143 offer "itineraries" in
       let* itinerary0' := getindex 143 itineraries' 0 in
       let* duration := get 143 itinerary0' "duration" VNone in
       let* price_d := get 145 offer "price" (VDict []) in
       let* price := get 145 price_d "total" VNone in
       let* price_d' := get 146 offer "price" (VDict []) in
       let* currency := get 146 price_d' "currency" VNone in
       ret (VDict [("airline", carrier);
                   ("from", departure);
                   ("to", arrival);
                   ("departure_time", dep_time);
                   ("arrival_time", arr_time);
                   ("duration", duration);
                   ("total_price", price);
                   ("currency_code", currency)]))
    (fun error_str => ret (VDict [("error", VStr error_str)])).

(** *** Sample backends *)

Definition london_airports : value :=
  VDict [("data", VList [
    VDict [("skyId", VStr "LOND");
           ("presentation", VDict [("title", VStr "London");
                                   ("suggestionTitle", VStr "London (Any)")]);
           ("navigation", VDict [("entityType", VStr "CITY")])];
    VDict [("skyId", VStr "LHR");
           ("presentation", VDict [("title", VStr "London Heathrow");
                                   ("suggestionTitle", VStr "London Heathrow (LHR)")]);
           ("navigation", VDict [("entityType", VStr "AIRPORT")])]])].

Definition paris_airports : value :=
  VDict [("data", VList [
    VDict [("skyId", VStr "CDG");
           ("presentation", VDict [("title", VStr "Paris Charles de Gaulle");
                                   ("suggestionTitle", VStr "Paris Charles de Gaulle (CDG)")]);
           ("navigation", VDict [("entityType", VStr "AIRPORT")])]])].

Definition sample_requests_get (location : string) : M (M value) :=
  if String.eqb location "London" then ret (ret london_airports)
  else if String.eqb location " Paris " then ret (ret paris_airports)
  else ret (ret (VDict [])).

Definition sample_offer : value :=
  VDict [("itineraries", VList [
           VDict [("duration", VStr "PT1H20M");
                  ("segments", VList [
                     VDict [("departure", VDict [("iataCode", VStr "LHR");
                                                 ("at", VStr "2025-06-01T07:00:00")]);
                            ("arrival", VDict [("iataCode", VStr "CDG");
                                               ("at", VStr "2025-06-01T09:20:00")]);
                            ("carrierCode", VStr "AF")]])]]);
         ("price", VDict [("currency", VStr "EUR"); ("total", VStr "123.45")])].

(** A backend that refuses every request. *)
Definition env_backend_error : Env :=
  {| requests_get := sample_requests_get;
     flight_offers_search_get := fun _ => raise (ResponseError "[400]") |}.

(** A backend that finds the offers it is built with. *)
Definition env_backend_offers (offers : list value) : Env :=
  {| requests_get := sample_requests_get;
     flight_offers_search_get := fun _ => ret (VList offers) |}.

End Flights.

(** ** [travel_planner_chatbot.py]: tool list, graph and thread listing *)

Module Chatbot.
Import Py.
Local Open Scope py_scope.

(** *** Messages and tools *)

(** A tool call requested by the model: [{"name", "args", "id"}]. *)
Record ToolCall : Type := {
  call_name : string;
  call_args : value;
  call_id : string
}.

(** The [BaseMessage] classes that reach the graph state, with the
    attribute [id] the reducer of line 136 goes by.  [Some i] is an id
    given by whoever built the message.  [None] is the id of a message
    built without one: the process makes an id for it (the run id of a
    model response, the [uuid4] the reducer stamps a message with), new
    each time and so equal to the id of no other message.  A
    [RemoveMessage], by which a sender has the stored message of an id
    deleted, is not among the classes. *)
Inductive BaseMessage : Type :=
| HumanMessage (content : string) (id : option string)
| AIMessage (content : string) (tool_calls : list ToolCall) (id : option string)
| ToolMessage (content : string) (name : string) (tool_call_id : string)
              (id : option string).

Definition message_id (m : BaseMessage) : option string :=
  match m with
  | HumanMessage _ id | AIMessage _ _ id | ToolMessage _ _ _ id => id
  end.

Inductive Role : Type := user | assistant | tool.

Definition role (m : BaseMessage) : Role :=
  match m with
  | HumanMessage _ _ => user
  | AIMessage _ _ _ => assistant
  | ToolMessage _ _ _ _ => tool
  end.

(** What a [BaseTool] runs when invoked: the web search wrapper, the local
    [build_itinerary] function, or a tool of one of the MCP servers. *)
Inductive Handle : Type :=
| DuckDuckGoSearchRun
| BuildItinerary
| McpTool (server : string).

Record BaseTool : Type := {
  name : string;
  description : string;
  handle : Handle
}.

(** Lines 23-44. *)
Record Connection : Type := {
  transport : string;
  command : string;
  args : list string
}.

Definition SERVERS : list (string * Connection) :=
  [("hotel",
    {| transport := "stdio"; command := "python3";
       args := ["/Users/sayamkumar/Desktop/Data Science/Projects/Travel Planner Assistant/hotels_mcp.py"] |});
   ("flight",
    {| transport := "stdio"; command := "python3";
       args := ["/Users/sayamkumar/Desktop/Data Science/Projects/Travel Planner Assistant/flights_mcp.py"] |});
   ("weather",
    {| transport := "stdio"; command := "python3";
       args := ["/Users/sayamkumar/Desktop/Data Science/Projects/Travel Planner Assistant/weather_mcp.py"] |});
   ("places",
    {| transport := "stdio"; command := "python3";
       args := ["/Users/sayamkumar/Desktop/Data Science/Projects/Travel Planner Assistant/places_mcp.py"] |})].

(** What the module reaches outside itself.
    - [discover server]: tool discovery on one MCP server; it raises when
      the server cannot be started or reached.
    - [llm_invoke catalog messages]: the model backend, an opaque function
      of the tool catalog bound to it and of the messages; the content and
      the requested tool calls of its answer, or an exception.
    - [validation_error tool args]: the check of the arguments of a call
      against the argument schema of the tool, made before the tool runs;
      [Some text] is the content of the error message the call is answered
      with when they do not fit.
    - [call_tool tool args]: the backend of the web search or of an MCP tool.
    - [latency call]: how long the backend of a tool call takes to answer;
      it fixes the order in which concurrent calls complete.
    - [system_prompt args]: the f-string of lines 87-126 for the arguments
      of a [build_itinerary] call.
    - [message_str run m]: [str(m)] of the message object the model
      invocation number [run] of the process returned.  The text shows the
      content, the tool calls, the metadata and the run id of the message,
      so it differs from one invocation to the next. *)
Record Env : Type := {
  discover : string -> M (list BaseTool);
  llm_invoke : list BaseTool -> list BaseMessage -> M (string * list ToolCall);
  validation_error : BaseTool -> value -> option string;
  call_tool : BaseTool -> value -> M string;
  latency : ToolCall -> nat;
  system_prompt : value -> string;
  message_str : nat -> BaseMessage -> string
}.

(** [MultiServerMCPClient.get_tools()]: every server of [SERVERS] is asked,
    the tool lists are gathered and concatenated in the order of [SERVERS];
    an exception of one discovery is the exception of the whole call. *)
Definition get_tools (env : Env) : M (list BaseTool) :=
  let* tools_list := map_m (fun server => discover env (fst server)) SERVERS in
  ret (concat tools_list).

(** Lines 72-79: the tools, and what the call printed. *)
Definition load_mcp_tools (env : Env) : list BaseTool * list string :=
  match get_tools env with
  | inr loaded => (loaded, [])
  | inl e => ([], ["Warning: failed to load MCP tools: " ++ exn_str e])
  end.

(** Line 81. *)
Definition mcp_tools (env : Env) : list BaseTool := fst (load_mcp_tools env).

(** Line 67; name and description are those of the library's wrapper. *)
Definition search_tool : BaseTool :=
  {| name := "duckduckgo_search";
     description := "A wrapper around DuckDuckGo Search. Useful for when you need to answer questions about current events. Input should be a search query.";
     handle := DuckDuckGoSearchRun |}.

(** Lines 83-85: the [@tool] object, named after the function, described by
    its docstring.  Its body is [build_itinerary_body] below. *)
Definition build_itinerary : BaseTool :=
  {| name := "build_itinerary";
     description := "Build a travel itinerary for a given destination, duration, and budget.";
     handle := BuildItinerary |}.

(** Line 131. *)
Definition tools (env : Env) : list BaseTool :=
  search_tool :: build_itinerary :: mcp_tools env.

(** *** The running process: what is observable and what is stored *)

(** A model invocation, with the tool catalog and the messages it was given. *)
Record ModelCall : Type := {
  catalog : list BaseTool;
  input : list BaseMessage
}.

(** Lines 135-136. *)
Record ChatState : Type := { messages : list BaseMessage }.

(** A row of the checkpoint database: the thread it belongs to and the
    state values saved in it. *)
Record Checkpoint : Type := {
  thread_id : string;
  values : ChatState
}.

(** [node_runs]: the graph nodes run so far, oldest first.
    [model_calls]: the model invocations so far, oldest first.
    [checkpoints]: the rows of [travel_planner_chatbot.db], oldest first. *)
Record World : Type := {
  node_runs : list string;
  model_calls : list ModelCall;
  checkpoints : list Checkpoint
}.

(** Code of the chatbot module runs against the world and may raise. *)
Definition G (A : Type) : Type := World -> M A * World.

Definition gret {A} (x : A) : G A := fun w => (inr x, w).
Definition graise {A} (e : exn) : G A := fun w => (inl e, w).
Definition gbind {A B} (m : G A) (f : A -> G B) : G B :=
  fun w =>
    match m w with
    | (inl e, w') => (inl e, w')
    | (inr x, w') => f x w'
    end.
Definition lift {A} (m : M A) : G A := fun w => (m, w).

Notation "'let!' x ':=' m 'in' k" := (gbind m (fun x => k))
  (at level 10, x name, m at level 100, k at level 200) : py_scope.

Definition record_model_call (c : ModelCall) : G unit :=
  fun w =>
    (inr tt,
     {| node_runs := node_runs w;
        model_calls := model_calls w ++ [c];
        checkpoints := checkpoints w |}).

Definition record_node_run (node_name : string) : G unit :=
  fun w =>
    (inr tt,
     {| node_runs := node_runs w ++ [node_name];
        model_calls := model_calls w;
        checkpoints := checkpoints w |}).

(** *** The model with its tools (lines 130-132) *)

(** [llm.bind_tools(tools, tool_choice="auto")]: the runnable that presents
    the bound tools to the model on every invocation. *)
Definition bind_tools (env : Env) (bound : list BaseTool)
    (messages : list BaseMessage) : G BaseMessage :=
  let! _ := record_model_call {| catalog := bound; input := messages |} in
  let! response := lift (llm_invoke env bound messages) in
  gret (AIMessage (fst response) (snd response) None).

(** Line 132: [llm.bind_tools(tools, ...) if tools else llm]; the bare [llm]
    is the model with no tool presented. *)
Definition llm_with_tools (env : Env) : list BaseMessage -> G BaseMessage :=
  match tools env with
  | [] => bind_tools env []
  | _ :: _ => bind_tools env (tools env)
  end.

(** Lines 84-128, the body of [build_itinerary]: [invoke] on a string sends
    it as one human message. *)
Definition build_itinerary_body (env : Env) (arguments : value) : G BaseMessage :=
  let! response := llm_with_tools env [HumanMessage (system_prompt env arguments) None] in
  gret response.

(** Lines 138-142; the value is the update [{"messages": [response]}]. *)
Definition chat_node (env : Env) (state : ChatState) : G (list BaseMessage) :=
  let messages := messages state in
  let! response := llm_with_tools env messages in
  gret [response].

(** *** The graph library, as far as lines 136 and 144-169 use it *)

(** The reducer [add_messages] of line 136 merges the update into the
    stored messages by id.  [merged_by_id] is its dict from the ids of the
    stored messages to their positions; of two stored messages with one id
    the later position stays in the dict. *)
Definition merged_by_id (merged : list BaseMessage) : gmap string nat :=
  foldl (fun by_id entry =>
           match message_id entry.2 with
           | Some id => <[id := entry.1]> by_id
           | None => by_id
           end)
        ∅ (zip (seq 0 (length merged)) merged).

(** The body of its loop: a message whose id is the id of a stored message
    takes the place of that message; any other message is appended, and a
    message without an id is appended under an id that is new. *)
Definition add_message (acc : list BaseMessage * gmap string nat) (m : BaseMessage)
    : list BaseMessage * gmap string nat :=
  let '(merged, by_id) := acc in
  match message_id m with
  | None => ((merged ++ [m])%list, by_id)
  | Some id =>
      match by_id !! id with
      | Some existing_idx => (<[existing_idx := m]> merged, by_id)
      | None => ((merged ++ [m])%list, <[id := length merged]> by_id)
      end
  end.

Definition add_messages (left right : list BaseMessage) : list BaseMessage :=
  (foldl add_message (left, merged_by_id left) right).1.

Definition apply_update (state : ChatState) (update : list BaseMessage) : ChatState :=
  {| messages := add_messages (messages state) update |}.

Definition START : string := "__start__".
Definition END : string := "__end__".

(** [tools_condition]: to the node "tools" when the last message is an AI
    message with tool calls, to [END] otherwise. *)
Definition tools_condition (state : ChatState) : M string :=
  match last (messages state) with
  | None => raise (ValueError "No messages found in input state to tool_edge")
  | Some (AIMessage _ (_ :: _) _) => ret "tools"
  | Some _ => ret END
  end.

(** [ToolNode(tools)] keeps its tools in a dict by name: of two tools of one
    name the later one stays, at the place of the first. *)
Definition tools_by_name (tool_list : list BaseTool) : gmap string BaseTool :=
  foldl (fun by_name t => <[name t := t]> by_name) ∅ tool_list.

(** The keys of that dict, in the order a Python dict keeps them. *)
Definition valid_names (tool_list : list BaseTool) : list string :=
  foldl (fun keys t => if decide (name t ∈ keys) then keys else (keys ++ [name t])%list)
        [] tool_list.

(** [sep.join(l)]. *)
Fixpoint join (sep : string) (l : list string) : string :=
  match l with
  | [] => ""
  | [x] => x
  | x :: rest => x ++ sep ++ join sep rest
  end.

Definition invalid_tool_name_error (tool_list : list BaseTool) (requested : string)
    : string :=
  "Error: " ++ requested ++ " is not a valid tool, try one of ["
  ++ join ", " (valid_names tool_list) ++ "].".

(** Invoking one tool with arguments that passed the check of its schema.
    The result of [build_itinerary] is the message object of line 128; the
    tool node stores [str()] of it as the content of the tool message. *)
Definition invoke_tool (env : Env) (t : BaseTool) (arguments : value) : G string :=
  match handle t with
  | BuildItinerary =>
      fun w =>
        (let! response := build_itinerary_body env arguments in
         gret (message_str env (length (model_calls w)) response)) w
  | DuckDuckGoSearchRun | McpTool _ => lift (call_tool env t arguments)
  end.

(** One requested call inside the tool node.  A call under a name no tool
    has, and a call whose arguments do not fit the schema of the tool, are
    answered with an error message; an exception raised by the tool itself
    is not handled and leaves the node.  The answer of the tool becomes a
    tool message carrying the name and the id of the request. *)
Definition run_one (env : Env) (tool_list : list BaseTool) (call : ToolCall)
    : G BaseMessage :=
  match tools_by_name tool_list !! call_name call with
  | None =>
      gret (ToolMessage (invalid_tool_name_error tool_list (call_name call))
                        (call_name call) (call_id call) None)
  | Some t =>
      match validation_error env t (call_args call) with
      | Some text => gret (ToolMessage text (call_name call) (call_id call) None)
      | None =>
          let! content := invoke_tool env t (call_args call) in
          gret (ToolMessage content (call_name call) (call_id call) None)
      end
  end.

(** The calls of one round run concurrently; the one whose backend answers
    first completes first. *)
Definition answers_no_later (a b : nat * nat) : Prop := (a.1 ≤ b.1)%nat.

#[global] Instance answers_no_later_dec a b : Decision (answers_no_later a b).
Proof. unfold answers_no_later. apply _. Defined.

Definition completion_order (env : Env) (calls : list ToolCall) : list nat :=
  (merge_sort answers_no_later
     (zip (latency env <$> calls) (seq 0 (length calls)))).*2.

(** [asyncio.gather]: every call has a result slot at the position of its
    request; a call that completes fills its own slot, and the first call
    that raises ends the gathering with its exception. *)
Fixpoint run_in_order (env : Env) (tool_list : list BaseTool) (calls : list ToolCall)
    (order : list nat) (slots : list (option BaseMessage))
    : G (list (option BaseMessage)) :=
  match order with
  | [] => gret slots
  | i :: rest =>
      match calls !! i with
      | Some call =>
          let! result := run_one env tool_list call in
          run_in_order env tool_list calls rest (<[i := Some result]> slots)
      | None => run_in_order env tool_list calls rest slots
      end
  end.

(** The node [ToolNode(tool_list)]: the tool calls of the last message are
    run, and the update holds the slots read from first to last. *)
Definition ToolNode (env : Env) (tool_list : list BaseTool) (state : ChatState)
    : G (list BaseMessage) :=
  match last (messages state) with
  | Some (AIMessage _ calls _) =>
      let! slots :=
        run_in_order env tool_list calls (completion_order env calls)
                     (replicate (length calls) None) in
      gret (omap id slots)
  | _ => graise (ValueError "Last message is not an AIMessage")
  end.

(** Line 145. *)
Definition tool_node (env : Env) : option (ChatState -> G (list BaseMessage)) :=
  match tools env with
  | [] => None
  | _ :: _ => Some (ToolNode env (tools env))
  end.

(** *** The checkpointer (lines 147-154) *)

(** [AsyncSqliteSaver]: one row is written per saved state; the state of a
    thread is that of its newest row, and a thread without rows has the
    empty state. *)
Definition put_checkpoint (tid : string) (state : ChatState) : G unit :=
  fun w =>
    (inr tt,
     {| node_runs := node_runs w;
        model_calls := model_calls w;
        checkpoints := checkpoints w ++ [{| thread_id := tid; values := state |}] |}).

Definition thread_rows (tid : string) (rows : list Checkpoint) : list Checkpoint :=
  filter (fun row => thread_id row = tid) rows.

Definition get_state (tid : string) (w : World) : ChatState :=
  match last (thread_rows tid (checkpoints w)) with
  | Some row => values row
  | None => {| messages := [] |}
  end.

(** [checkpointer.alist(None)]: every row, newest first. *)
Definition alist (w : World) : list Checkpoint := rev (checkpoints w).

(** *** The state graph (lines 156-169) *)

Inductive Edge : Type :=
| EdgeTo (target : string)
| EdgeIf (path : ChatState -> M string).

Record StateGraph : Type := {
  nodes : gmap string (ChatState -> G (list BaseMessage));
  edges : gmap string Edge
}.

Definition StateGraph_new : StateGraph := {| nodes := ∅; edges := ∅ |}.

Definition add_node (node_name : string) (action : ChatState -> G (list BaseMessage))
    (g : StateGraph) : StateGraph :=
  {| nodes := <[node_name := action]> (nodes g); edges := edges g |}.

Definition add_edge (source target : string) (g : StateGraph) : StateGraph :=
  {| nodes := nodes g; edges := <[source := EdgeTo target]> (edges g) |}.

Definition add_conditional_edges (source : string) (path : ChatState -> M string)
    (g : StateGraph) : StateGraph :=
  {| nodes := nodes g; edges := <[source := EdgeIf path]> (edges g) |}.

(** Lines 157-166. *)
Definition graph (env : Env) : StateGraph :=
  let g := StateGraph_new in
  let g := add_node "chat_node" (chat_node env) g in
  let g := add_edge START "chat_node" g in
  match tool_node env with
  | Some tool_node =>
      let g := add_node "tools" tool_node g in
      let g := add_conditional_edges "chat_node" tools_condition g in
      add_edge "tools" "chat_node" g
  | None =>
      add_edge "chat_node" END g
  end.

(** Where the run goes after [source]. *)
Definition next_node (g : StateGraph) (source : string) (state : ChatState) : M string :=
  match edges g !! source with
  | Some (EdgeTo target) => ret target
  | Some (EdgeIf path) => path state
  | None => ret END
  end.

(** The compiled graph runs one node per step: the node's update goes
    through the reducer, the edge out of the node is followed on the new
    state, and the new state is saved under the thread.  [steps] is what is
    left of the limit the caller gave ([recursion_limit]).  The limit is
    tested before each step, the one that would find nothing left to run
    included: when nothing is left of it the run raises
    [GraphRecursionError], also when the last node led to [END]. *)
Fixpoint run_from (g : StateGraph) (tid : string) (steps : nat) (current : string)
    (state : ChatState) : G ChatState :=
  match steps with
  | O => graise GraphRecursionError
  | S steps' =>
      if String.eqb current END then gret state
      else
        match nodes g !! current with
        | None => graise (ValueError ("Unknown node " ++ current))
        | Some action =>
            let! _ := record_node_run current in
            let! update := action state in
            let state' := apply_update state update in
            let! next := lift (next_node g current state') in
            let! _ := put_checkpoint tid state' in
            run_from g tid steps' next state'
        end
  end.

(** One turn on a thread.  A limit below 1 is refused before anything is
    read or written.  Otherwise the saved state of the thread is saved
    again as the checkpoint of the input, takes the input through the
    reducer (the step of [START]), is saved, and the run starts at the node
    after [START]. *)
Definition invoke (g : StateGraph) (steps : nat) (tid : string)
    (input : list BaseMessage) : G ChatState :=
  match steps with
  | O => graise (ValueError "recursion_limit must be at least 1")
  | S _ =>
      fun w =>
        let saved := get_state tid w in
        let state := apply_update saved input in
        (let! _ := put_checkpoint tid saved in
         let! next := lift (next_node g START state) in
         let! _ := put_checkpoint tid state in
         run_from g tid steps next state) w
  end.

(** Line 169. *)
Definition chatbot (env : Env) : nat -> string -> list BaseMessage -> G ChatState :=
  invoke (graph env).

(** *** Helper utilities (lines 171-180) *)

(** Lines 172-177: the thread ids of all rows, collected in a set.  The
    order in which [list(threads)] gives them is that of the hash table of
    the set, which is no property of the ids; what is stated of the
    listing below is stated of its members. *)
Definition _alist_threads (w : World) : list string :=
  let threads : gset string :=
    foldl (fun threads checkpoint => threads ∪ {[thread_id checkpoint]}) ∅ (alist w) in
  elements threads.

(** Lines 179-180. *)
Definition retrieve_all_threads (w : World) : list string := _alist_threads w.

(** *** Callers and sample backends *)

(** The same surroundings with other answer times of the tool backends. *)
Definition with_latency (env : Env) (answer_time : ToolCall -> nat) : Env :=
  {| discover := discover env;
     llm_invoke := llm_invoke env;
     validation_error := validation_error env;
     call_tool := call_tool env;
     latency := answer_time;
     system_prompt := system_prompt env;
     message_str := message_str env |}.

(** The process after start-up: nothing run, nothing asked, and the
    database as it was found. *)
Definition started (rows : list Checkpoint) : World :=
  {| node_runs := []; model_calls := []; checkpoints := rows |}.

(** A turn as a caller submits it: the step limit, the thread and the
    input messages. *)
Definition Turn : Type := nat * string * list BaseMessage.

(** The turns of a session, one after the other; a turn that raises leaves
    the world as it was when it raised. *)
Definition run_turns (env : Env) (turns : list Turn) (w : World) : World :=
  foldl (fun w turn => snd (chatbot env turn.1.1 turn.1.2 turn.2 w)) w turns.

Definition search_hotels : BaseTool :=
  {| name := "search_hotels"; description := "Search hotels."; handle := McpTool "hotel" |}.

Definition get_weather_forecast : BaseTool :=
  {| name := "get_weather_forecast"; description := "Weather forecast.";
     handle := McpTool "weather" |}.

Definition sample_env (discovery : string -> M (list BaseTool))
    (model : list BaseTool -> list BaseMessage -> M (string * list ToolCall)) : Env :=
  {| discover := discovery;
     llm_invoke := model;
     validation_error := fun _ arguments =>
       match arguments with
       | VDict _ => None
       | _ => Some "Error invoking tool: the arguments are not an object."
       end;
     call_tool := fun t _ => ret ("result of " ++ name t);
     latency := fun call => String.length (call_name call);
     system_prompt := fun _ => "You are a Travel Orchestration Agent.";
     message_str := fun run m =>
       match m with
       | HumanMessage c _ | AIMessage c _ _ | ToolMessage c _ _ _ =>
           "content='" ++ c ++ "' id='run-" ++ pretty run ++ "'"
       end |}.

(** Every server answers. *)
Definition all_servers_up (server : string) : M (list BaseTool) :=
  if String.eqb server "hotel" then ret [search_hotels]
  else if String.eqb server "weather" then ret [get_weather_forecast]
  else ret [].

(** The flight server cannot be started. *)
Definition flight_server_down (server : string) : M (list BaseTool) :=
  if String.eqb server "flight" then raise (OtherError "Connection closed")
  else all_servers_up server.

(** The hotel server offers a tool under the name of a local tool. *)
Definition hotel_server_shadows (server : string) : M (list BaseTool) :=
  if String.eqb server "hotel" then
    ret [{| name := "build_itinerary"; description := "Remote itinerary builder.";
            handle := McpTool "hotel" |}]
  else ret [].

Definition call_hotels : ToolCall :=
  {| call_name := "search_hotels";
     call_args := VDict [("destination", VStr "Paris")];
     call_id := "call_A" |}.

Definition call_weather : ToolCall :=
  {| call_name := "get_weather_forecast";
     call_args := VDict [("location", VStr "Paris")];
     call_id := "call_B" |}.

(** A model that answers at once. *)
Definition model_answers (_ : list BaseTool) (_ : list BaseMessage)
    : M (string * list ToolCall) :=
  ret ("Here is your itinerary.", []).

(** A model that asks for two tools first and answers once it has results. *)
Definition model_asks_once (_ : list BaseTool) (messages : list BaseMessage)
    : M (string * list ToolCall) :=
  match last messages with
  | Some (ToolMessage _ _ _ _) => ret ("Here is your itinerary.", [])
  | _ => ret ("", [call_hotels; call_weather])
  end.

(** A model that asks for a tool every time. *)
Definition model_always_asks (_ : list BaseTool) (_ : list BaseMessage)
    : M (string * list ToolCall) :=
  ret ("", [call_hotels]).

(** *** Observations the properties are stated with *)

(** The tool that serves the calls made under a name, and the message a
    call is answered with once the backend of that tool has returned
    [content]. *)
Definition tool_named (tool_list : list BaseTool) (n : string) : option BaseTool :=
  last (filter (fun t => name t = n) tool_list).

Definition tool_message (call : ToolCall) (content : string) : BaseMessage :=
  ToolMessage content (call_name call) (call_id call) None.

(** The backend of the tool called by [call] is one of the web search or of
    an MCP server, the arguments fit the schema, and the backend returns
    [content]. *)
Definition backend_returns (env : Env) (call : ToolCall) (content : string) : Prop :=
  exists t,
    tool_named (tools env) (call_name call) = Some t
    /\ handle t <> BuildItinerary
    /\ validation_error env t (call_args call) = None
    /\ call_tool env t (call_args call) = inr content.

(** No message of the list carries an id given by its sender. *)
Definition without_ids (l : list BaseMessage) : Prop :=
  Forall (fun m => message_id m = None) l.

(** The same of the result slots of the tool node that are filled. *)
Definition slots_without_ids (slots : list (option BaseMessage)) : Prop :=
  Forall (fun slot => forall m, slot = Some m -> message_id m = None) slots.

(** [w'] is [w] after the node runs [runs], the model invocations [calls]
    and the saved rows [rows], in that order. *)
Definition grown (w w' : World) (runs : list string) (calls : list ModelCall)
    (rows : list Checkpoint) : Prop :=
  node_runs w' = (node_runs w ++ runs)%list
  /\ model_calls w' = (model_calls w ++ calls)%list
  /\ checkpoints w' = (checkpoints w ++ rows)%list.

(** [n] node names, taking turns, [current] first. *)
Fixpoint alternation (n : nat) (current other : string) : list string :=
  match n with
  | O => []
  | S n' => current :: alternation n' other current
  end.

Definition env_flight_down : Env := sample_env flight_server_down model_answers.
Definition env_shadowed : Env := sample_env hotel_server_shadows model_answers.
Definition env_answers : Env := sample_env all_servers_up model_answers.
Definition env_asks_once : Env := sample_env all_servers_up model_asks_once.
Definition env_always_asks : Env := sample_env all_servers_up model_always_asks.

End Chatbot.

(** * Properties *)

(** ** What the primitive operations can raise *)

Section PyFacts.
Import Py.

Lemma bind_inl {A B} (m : M A) (f : A -> M B) (e : exn) :
  bind m f = inl e -> m = inl e \/ exists x, m = inr x /\ f x = inl e.
Proof. destruct m as [e'|x]; simpl; [intros [= ->]; by left | eauto]. Qed.

Lemma seq_index_raises {A} line (l : list A) i e :
  seq_index line l i = inl e -> e = IndexError line.
Proof.
  unfold seq_index, ret, raise. repeat case_match; congruence.
Qed.

Lemma seq_index_0_cons {A} line (x : A) (l : list A) :
  seq_index line (x :: l) 0 = inr x.
Proof.
  unfold seq_index. cbn [length]. rewrite Nat2Z.inj_succ.
  replace (0 <? 0)%Z with false by reflexivity.
  replace (0 <=? 0)%Z with true by reflexivity.
  destruct (Z.ltb_spec 0 (Z.succ (Z.of_nat (length l)))) as [_|H]; [reflexivity | lia].
Qed.

Lemma getitem_raises line v k e :
  getitem line v k = inl e -> e = KeyError line \/ e = TypeError line.
Proof.
  unfold getitem, ret, raise. repeat case_match; intros [= <-]; auto.
Qed.

Lemma getindex_raises line v i e :
  getindex line v i = inl e ->
  e = IndexError line \/ e = KeyError line \/ e = TypeError line.
Proof.
  unfold getindex, raise. destruct v; try (intros [= <-]; by auto).
  - intros [H|(c & _ & [=])]%bind_inl. apply seq_index_raises in H. auto.
  - intros H%seq_index_raises. auto.
Qed.

Lemma get_raises line v k d e :
  get line v k d = inl e -> e = AttributeError line.
Proof. unfold get, ret, raise. destruct v; congruence. Qed.

(** An object that is true and is indexed at [0] never raises
    [IndexError]: a true list or string has a first element. *)
Lemma getindex_0_truthy line v :
  truthy v = true -> getindex line v 0 <> inl (IndexError line).
Proof.
  destruct v as [| | |s|l|d]; simpl; try discriminate.
  - destruct s as [|c s]; [discriminate|]. intros _.
    cbn [list_ascii_of_string]. by rewrite seq_index_0_cons.
  - destruct l as [|x l]; [discriminate|]. intros _.
    by rewrite seq_index_0_cons.
Qed.

End PyFacts.

(** ** The flight tools *)

Section FlightsProperties.
Import Py Flights.

(** The exceptions the summary of one offer can raise belong to the lines
    after the access to the first offer. *)
Ltac raised_elsewhere :=
  repeat match goal with
  | H : bind _ _ = inl _ |- _ =>
      apply bind_inl in H; destruct H as [H|(? & _ & H)]
  | H : getitem _ _ _ = inl _ |- _ =>
      apply getitem_raises in H; destruct H as [H|H]; discriminate H
  | H : getindex _ _ _ = inl _ |- _ =>
      apply getindex_raises in H; destruct H as [H|[H|H]]; discriminate H
  | H : get _ _ _ _ = inl _ |- _ =>
      apply get_raises in H; discriminate H
  | H : ret _ = inl _ |- _ => discriminate H
  end.

Example get_airport_code_prefers_airport :
  get_airport_code env_backend_error "London" = inr (VStr "LHR").
Proof. reflexivity. Qed.

Example get_airport_code_strips_query :
  get_airport_code env_backend_error " Paris " = inr (VStr "CDG").
Proof. reflexivity. Qed.

Example get_airport_code_without_data :
  get_airport_code env_backend_error "Atlantis" = inr VNone.
Proof. reflexivity. Qed.

Example search_flights_summary :
  search_flights (env_backend_offers [sample_offer]) "London" " Paris " "2025-06-01" 2
  = inr (VDict [("origin", VStr "LHR");
                ("destination", VStr "CDG");
                ("departure_date", VStr "2025-06-01");
                ("num_adults", VInt 2);
                ("num_results", VInt 1);
                ("flights", VList [
                   VDict [("airline", VStr "AF");
                          ("from", VStr "LHR");
                          ("to", VStr "CDG");
                          ("departure_time", VStr "2025-06-01T07:00:00");
                          ("arrival_time", VStr "2025-06-01T09:20:00");
                          ("duration", VStr "PT1H20M");
                          ("total_price", VStr "123.45");
                          ("currency_code", VStr "EUR")]])]).
Proof. reflexivity. Qed.

(** An offer without itineraries is not caught by the handler: the
    exception of line 135 leaves the function. *)
Example get_cheapest_flight_malformed_offer :
  get_cheapest_flight (env_backend_offers [VDict [("itineraries", VList [])]])
                      "London" " Paris "
  = inl (IndexError 135).
Proof. reflexivity. Qed.

(** C9. When the flight backend raises a ResponseError, search_flights and
    get_cheapest_flight both return the mapping [{"error": str(error)}]
    and no exception leaves them.  The backend is reached once the two
    airport lookups of the first line of each function have returned. *)
Theorem response_error_returned_as_error_mapping
    (env : Env) (origin destination departure_date : string) (num_adults : Z)
    (origin_code destination_code : value) (error_str : string) :
  get_airport_code env origin = inr origin_code ->
  get_airport_code env destination = inr destination_code ->
  (flight_offers_search_get env
     [("originLocationCode", origin_code);
      ("destinationLocationCode", destination_code);
      ("departureDate", VStr departure_date);
      ("adults", VInt num_adults);
      ("max", VInt 5)] = inl (ResponseError error_str) ->
   search_flights env origin destination departure_date num_adults
   = inr (VDict [("error", VStr error_str)]))
  /\
  (flight_offers_search_get env
     [("originLocationCode", origin_code);
      ("destinationLocationCode", destination_code);
      ("max", VInt 1);
      ("sort", VStr "price")] = inl (ResponseError error_str) ->
   get_cheapest_flight env origin destination
   = inr (VDict [("error", VStr error_str)])).
Proof.
  intros Horigin Hdestination. split; intros Hbackend.
  - unfold search_flights. rewrite Horigin, Hdestination. cbn [bind].
    rewrite Hbackend. reflexivity.
  - unfold get_cheapest_flight. rewrite Horigin, Hdestination. cbn [bind].
    rewrite Hbackend. reflexivity.
Qed.

(** C10. When the backend returns an empty list of offers,
    get_cheapest_flight returns [{"message": "No flights found."}]; and
    whatever list the backend returns, the access [offers[0]] of line 134
    never raises IndexError: it is reached with a non-empty list only. *)
Theorem get_cheapest_flight_guards_first_offer
    (env : Env) (origin destination : string)
    (origin_code destination_code : value) (offers : list value) :
  get_airport_code env origin = inr origin_code ->
  get_airport_code env destination = inr destination_code ->
  flight_offers_search_get env
    [("originLocationCode", origin_code);
     ("destinationLocationCode", destination_code);
     ("max", VInt 1);
     ("sort", VStr "price")] = inr (VList offers) ->
  (offers = [] ->
   get_cheapest_flight env origin destination
   = inr (VDict [("message", VStr "No flights found.")]))
  /\ get_cheapest_flight env origin destination <> inl (IndexError 134)
  /\ (offers <> [] ->
      exists offer, head offers = Some offer /\
        getindex 134 (VList offers) 0 = inr offer).
Proof.
  intros Horigin Hdestination Hbackend.
  unfold get_cheapest_flight. rewrite Horigin, Hdestination. cbn [bind].
  rewrite Hbackend. cbn [bind try_except_ResponseError].
  destruct offers as [|offer rest].
  - split; [reflexivity|]. split; [discriminate|]. intros []; reflexivity.
  - split; [discriminate|]. split; [|intros _; exists offer; split; [reflexivity|apply seq_index_0_cons]].
    cbn [truthy negb getindex]. rewrite seq_index_0_cons. cbn [bind].
    intros H. unfold try_except_ResponseError in H.
    match type of H with
    | match ?body with _ => _ end = _ => destruct body as [e|v] eqn:Hbody
    end.
    + assert (e = IndexError 134) as -> by (destruct e; cbv [ret] in H; congruence).
      raised_elsewhere.
    + discriminate H.
Qed.

Lemma response_error_returned_as_error_mapping_witness :
  search_flights env_backend_error "London" " Paris " "2025-06-01" 2
  = inr (VDict [("error", VStr "[400]")])
  /\ get_cheapest_flight env_backend_error "London" " Paris "
     = inr (VDict [("error", VStr "[400]")]).
Proof.
  destruct (response_error_returned_as_error_mapping
              env_backend_error "London" " Paris " "2025-06-01" 2
              (VStr "LHR") (VStr "CDG") "[400]" eq_refl eq_refl) as [Hsearch Hcheapest].
  split; [apply Hsearch | apply Hcheapest]; reflexivity.
Defined.

Lemma get_cheapest_flight_guards_first_offer_witness :
  get_cheapest_flight (env_backend_offers []) "London" " Paris "
  = inr (VDict [("message", VStr "No flights found.")])
  /\ get_cheapest_flight (env_backend_offers [sample_offer]) "London" " Paris "
     <> inl (IndexError 134).
Proof.
  split.
  - apply (get_cheapest_flight_guards_first_offer
             (env_backend_offers []) "London" " Paris " (VStr "LHR") (VStr "CDG") []
             eq_refl eq_refl eq_refl); reflexivity.
  - apply (get_cheapest_flight_guards_first_offer
             (env_backend_offers [sample_offer]) "London" " Paris "
             (VStr "LHR") (VStr "CDG") [sample_offer] eq_refl eq_refl eq_refl).
Defined.

End FlightsProperties.

(** ** The tool list *)

Section ToolListProperties.
Import Py Chatbot.
Local Open Scope list_scope.

Lemma map_m_inl {A B} (f : A -> M B) (xs : list A) (x : A) (e : exn) :
  x ∈ xs -> f x = inl e -> exists e', map_m f xs = inl e'.
Proof.
  induction xs as [|y xs IH]; intros Hin Hfail.
  - by apply elem_of_nil in Hin.
  - cbn [map_m]. destruct (f y) as [e0|b] eqn:Hy; [by eexists|].
    apply elem_of_cons in Hin as [->|Hin]; [congruence|].
    destruct (IH Hin Hfail) as [e' ->]. by eexists.
Qed.

Lemma map_m_inr {A B} (f : A -> M B) (g : A -> B) (xs : list A) :
  (forall x, x ∈ xs -> f x = inr (g x)) -> map_m f xs = inr (map g xs).
Proof.
  induction xs as [|y xs IH]; intros Hall; [reflexivity|].
  cbn [map_m]. rewrite (Hall y) by apply list_elem_of_here. cbn [bind].
  rewrite IH; [reflexivity|]. intros x Hx. apply Hall. by apply list_elem_of_further.
Qed.

(** The list of line 131 is never empty, so line 132 binds the tools and
    line 145 builds the tool node. *)
Lemma llm_with_tools_bound env : llm_with_tools env = bind_tools env (tools env).
Proof. reflexivity. Qed.

Lemma tool_node_built env : tool_node env = Some (ToolNode env (tools env)).
Proof. reflexivity. Qed.

(** When every server answers, the list holds the two local tools and then
    the tools of the servers in the order of [SERVERS]. *)
Lemma tools_all_servers_up env (found : string -> list BaseTool) :
  (forall server, server ∈ SERVERS.*1 -> discover env server = inr (found server)) ->
  load_mcp_tools env = (concat (found <$> SERVERS.*1), [])
  /\ tools env
     = [search_tool; build_itinerary]
       ++ found "hotel" ++ found "flight" ++ found "weather" ++ found "places".
Proof.
  intros Hup. unfold tools, mcp_tools, load_mcp_tools, get_tools.
  rewrite (map_m_inr _ (fun server => found (fst server))).
  - cbn. rewrite app_nil_r. by rewrite !app_assoc.
  - intros server Hin. apply Hup. by apply list_elem_of_fmap_2.
Qed.

(** C4, as the claim states it, fails: with the flight server down, the
    tool of the hotel server (which answered) is not in the list. *)
Lemma flight_server_down_drops_hotel_tool :
  discover env_flight_down "flight" = inl (OtherError "Connection closed")
  /\ discover env_flight_down "hotel" = inr [search_hotels]
  /\ (search_hotels ∉ tools env_flight_down)
  /\ tools env_flight_down = [search_tool; build_itinerary].
Proof.
  repeat split.
  intros Hin. cbn in Hin.
  repeat (apply elem_of_cons in Hin as [Heq|Hin]; [discriminate Heq|]).
  by apply elem_of_nil in Hin.
Qed.

(** C4, amended. If discovery fails on any configured server, building the
    tool list still succeeds: a warning is printed and the list is exactly
    the two local tools, the tools of every remote server being absent. *)
Theorem failed_discovery_leaves_local_tools
    (env : Env) (server : string) (e : exn) :
  server ∈ SERVERS.*1 ->
  discover env server = inl e ->
  (exists e', load_mcp_tools env
              = ([], [("Warning: failed to load MCP tools: " ++ exn_str e')%string]))
  /\ mcp_tools env = []
  /\ tools env = [search_tool; build_itinerary].
Proof.
  intros Hin Hfail.
  assert (exists e', get_tools env = inl e') as [e' Hget].
  { unfold get_tools.
    apply list_elem_of_fmap in Hin as (entry & -> & Hentry).
    destruct (map_m_inl (fun s => discover env (fst s)) SERVERS entry e Hentry Hfail)
      as [e' ->].
    by exists e'. }
  unfold tools, mcp_tools, load_mcp_tools. rewrite Hget. cbn [fst]. eauto.
Qed.

Lemma failed_discovery_leaves_local_tools_witness :
  tools env_flight_down = [search_tool; build_itinerary].
Proof.
  apply (failed_discovery_leaves_local_tools
           env_flight_down "flight" (OtherError "Connection closed")).
  - vm_compute. apply list_elem_of_further, list_elem_of_here.
  - reflexivity.
Defined.

(** C5, as the claim states it, fails: a discovered tool that carries the
    name of a local tool is added without any error, and the list then
    holds two tools of that name. *)
Lemma duplicate_name_is_accepted :
  map name (tools env_shadowed)
  = ["duckduckgo_search"; "build_itinerary"; "build_itinerary"]
  /\ ~ NoDup (map name (tools env_shadowed)).
Proof.
  split; [reflexivity|].
  intros Hnodup. cbn in Hnodup.
  apply NoDup_cons in Hnodup as [_ Hnodup].
  apply NoDup_cons in Hnodup as [Hnotin _].
  apply Hnotin, list_elem_of_here.
Qed.

(** C5, amended. Building the tool list checks no name and never fails:
    when the servers answer, the list is the two local tools followed by
    every discovered tool in discovery order, so a tool is added whether
    its name is new or already present, and the list holds as many tools
    of a name as the local tools and the servers together gave. *)
Theorem tools_keep_every_tool
    (env : Env) (found : string -> list BaseTool) (n : string) :
  (forall server, server ∈ SERVERS.*1 -> discover env server = inr (found server)) ->
  tools env
  = [search_tool; build_itinerary]
    ++ found "hotel" ++ found "flight" ++ found "weather" ++ found "places"
  /\ (forall server t, server ∈ SERVERS.*1 -> t ∈ found server -> t ∈ tools env)
  /\ length (filter (fun t => name t = n) (tools env))
     = length (filter (fun t => name t = n) [search_tool; build_itinerary])
       + length (filter (fun t => name t = n) (concat (found <$> SERVERS.*1))).
Proof.
  intros Hup. destruct (tools_all_servers_up env found Hup) as [Hloaded Htools].
  split; [exact Htools|]. split.
  - intros server t Hserver Ht. rewrite Htools.
    do 2 apply list_elem_of_further. cbn in Hserver.
    repeat (apply elem_of_cons in Hserver as [->|Hserver];
            [rewrite !elem_of_app; tauto|]).
    by apply elem_of_nil in Hserver.
  - change (tools env) with ([search_tool; build_itinerary] ++ mcp_tools env).
    unfold mcp_tools. rewrite Hloaded. cbn [fst]. by rewrite filter_app, length_app.
Qed.

Lemma tools_keep_every_tool_witness :
  length (filter (fun t => name t = "build_itinerary") (tools env_shadowed)) = 2.
Proof.
  apply (tools_keep_every_tool env_shadowed
           (fun server => match hotel_server_shadows server with
                          | inr found => found
                          | inl _ => []
                          end)
           "build_itinerary").
  intros server Hserver. cbn in Hserver.
  repeat (apply elem_of_cons in Hserver as [->|Hserver]; [reflexivity|]).
  by apply elem_of_nil in Hserver.
Defined.

End ToolListProperties.

(** ** The graph *)

Section GraphProperties.
Import Py Chatbot.
Local Open Scope list_scope.

Lemma grown_refl w : grown w w [] [] [].
Proof. unfold grown. by rewrite !app_nil_r. Qed.

Lemma grown_trans w1 w2 w3 runs calls rows runs' calls' rows' :
  grown w1 w2 runs calls rows -> grown w2 w3 runs' calls' rows' ->
  grown w1 w3 (runs ++ runs') (calls ++ calls') (rows ++ rows').
Proof.
  intros (H1 & H2 & H3) (H1' & H2' & H3'). unfold grown.
  rewrite H1', H2', H3', H1, H2, H3. by rewrite !app_assoc.
Qed.

(** *** The graph as built by lines 157-166 *)

Lemma graph_node_chat env : nodes (graph env) !! "chat_node" = Some (chat_node env).
Proof. reflexivity. Qed.

Lemma graph_node_tools env :
  nodes (graph env) !! "tools" = Some (ToolNode env (tools env)).
Proof. reflexivity. Qed.

Lemma graph_nodes env node_name action :
  nodes (graph env) !! node_name = Some action ->
  (node_name = "chat_node" /\ action = chat_node env)
  \/ (node_name = "tools" /\ action = ToolNode env (tools env)).
Proof.
  unfold graph. rewrite tool_node_built. cbn [nodes add_edge add_conditional_edges add_node StateGraph_new].
  rewrite !lookup_insert_Some, lookup_empty.
  intros [[<- <-]|[_ [[<- <-]|[_ [=]]]]]; auto.
Qed.

Lemma graph_after_START env state : next_node (graph env) START state = inr "chat_node".
Proof. reflexivity. Qed.

Lemma graph_after_chat env state :
  next_node (graph env) "chat_node" state = tools_condition state.
Proof. reflexivity. Qed.

Lemma graph_after_tools env state :
  next_node (graph env) "tools" state = inr "chat_node".
Proof. reflexivity. Qed.

(** *** The reducer *)

(** Messages that come without an id are appended, whatever is stored. *)
Lemma foldl_add_message_without_ids right :
  forall merged by_id,
    without_ids right ->
    foldl add_message (merged, by_id) right = (merged ++ right, by_id).
Proof.
  induction right as [|m right IH]; intros merged by_id Hids.
  - cbn. by rewrite app_nil_r.
  - apply Forall_cons in Hids as [Hm Hright]. cbn [foldl add_message].
    rewrite Hm, IH by done. by rewrite <- app_assoc.
Qed.

Lemma add_messages_without_ids left right :
  without_ids right -> add_messages left right = left ++ right.
Proof.
  intros Hids. unfold add_messages. by rewrite foldl_add_message_without_ids.
Qed.

Lemma apply_update_without_ids state update :
  without_ids update ->
  messages (apply_update state update) = messages state ++ update.
Proof. apply add_messages_without_ids. Qed.

(** The state after an update without ids extends the state before it. *)
Lemma apply_update_prefix state update :
  without_ids update ->
  messages state `prefix_of` messages (apply_update state update).
Proof. intros Hids. rewrite apply_update_without_ids by done. by apply prefix_app_r. Qed.

(** *** What one node does to the world *)

Lemma bind_tools_run env bound msgs w :
  bind_tools env bound msgs w
  = (match llm_invoke env bound msgs with
     | inl e => inl e
     | inr response => inr (AIMessage response.1 response.2 None)
     end,
     {| node_runs := node_runs w;
        model_calls := model_calls w ++ [{| catalog := bound; input := msgs |}];
        checkpoints := checkpoints w |}).
Proof.
  unfold bind_tools, gbind, record_model_call, lift, gret.
  by destruct (llm_invoke env bound msgs).
Qed.

Lemma chat_node_run env state w :
  chat_node env state w
  = (match llm_invoke env (tools env) (messages state) with
     | inl e => inl e
     | inr response => inr [AIMessage response.1 response.2 None]
     end,
     {| node_runs := node_runs w;
        model_calls := model_calls w
                       ++ [{| catalog := tools env; input := messages state |}];
        checkpoints := checkpoints w |}).
Proof.
  unfold chat_node, gbind. rewrite llm_with_tools_bound, bind_tools_run.
  by destruct (llm_invoke env (tools env) (messages state)).
Qed.

Lemma chat_node_grown env state w :
  grown w (chat_node env state w).2 []
        [{| catalog := tools env; input := messages state |}] [].
Proof. rewrite chat_node_run. unfold grown. cbn. by rewrite !app_nil_r. Qed.

Lemma chat_node_without_ids env state w update :
  (chat_node env state w).1 = inr update -> without_ids update.
Proof.
  rewrite chat_node_run. cbn [fst].
  destruct (llm_invoke env (tools env) (messages state)); [discriminate|].
  intros [= <-]. by repeat constructor.
Qed.

(** *** Dispatch by name *)

Lemma tools_by_name_from (tool_list : list BaseTool) (by_name : gmap string BaseTool) n :
  foldl (fun by_name t => <[name t := t]> by_name) by_name tool_list !! n
  = match last (filter (fun t => name t = n) tool_list) with
    | Some t => Some t
    | None => by_name !! n
    end.
Proof.
  revert by_name. induction tool_list as [|t tool_list IH]; intros by_name; [done|].
  cbn [foldl]. rewrite IH, filter_cons. destruct (decide (name t = n)) as [<-|Hne].
  - rewrite last_cons, lookup_insert_eq. by destruct (last _).
  - by rewrite lookup_insert_ne.
Qed.

Lemma tools_by_name_lookup (tool_list : list BaseTool) n :
  tools_by_name tool_list !! n = tool_named tool_list n.
Proof.
  unfold tools_by_name, tool_named.
  rewrite tools_by_name_from, lookup_empty. by destruct (last _).
Qed.

(** *** One call of the tool node *)

Lemma invoke_tool_run env t arguments w :
  invoke_tool env t arguments w
  = match handle t with
    | BuildItinerary =>
        (match llm_invoke env (tools env)
                 [HumanMessage (system_prompt env arguments) None] with
         | inl e => inl e
         | inr response =>
             inr (message_str env (length (model_calls w))
                              (AIMessage response.1 response.2 None))
         end,
         {| node_runs := node_runs w;
            model_calls :=
              model_calls w
              ++ [{| catalog := tools env;
                     input := [HumanMessage (system_prompt env arguments) None] |}];
            checkpoints := checkpoints w |})
    | DuckDuckGoSearchRun | McpTool _ => (call_tool env t arguments, w)
    end.
Proof.
  unfold invoke_tool. destruct (handle t); [done| |done].
  unfold build_itinerary_body, gbind, gret.
  rewrite llm_with_tools_bound, bind_tools_run.
  by destruct (llm_invoke env (tools env) _).
Qed.

Lemma run_one_run env tool_list call w :
  run_one env tool_list call w
  = match tool_named tool_list (call_name call) with
    | None =>
        (inr (ToolMessage (invalid_tool_name_error tool_list (call_name call))
                          (call_name call) (call_id call) None), w)
    | Some t =>
        match validation_error env t (call_args call) with
        | Some text => (inr (ToolMessage text (call_name call) (call_id call) None), w)
        | None =>
            match invoke_tool env t (call_args call) w with
            | (inl e, w') => (inl e, w')
            | (inr content, w') => (inr (tool_message call content), w')
            end
        end
    end.
Proof.
  unfold run_one. rewrite tools_by_name_lookup.
  destruct (tool_named tool_list (call_name call)) as [t|]; [|done].
  destruct (validation_error env t (call_args call)); [done|].
  unfold gbind, gret, tool_message.
  by destruct (invoke_tool env t (call_args call) w) as [[e|content] w'].
Qed.

(** A call only adds model invocations, each with the full tool list, and
    its answer is a message without an id of its own. *)
Lemma run_one_grown env tool_list call w :
  exists calls,
    grown w (run_one env tool_list call w).2 [] calls []
    /\ Forall (fun c => catalog c = tools env) calls
    /\ forall m, (run_one env tool_list call w).1 = inr m -> message_id m = None.
Proof.
  rewrite run_one_run.
  destruct (tool_named tool_list (call_name call)) as [t|].
  2: { exists []. cbn. split; [apply grown_refl|]. split; [done|]. by intros m [= <-]. }
  destruct (validation_error env t (call_args call)).
  { exists []. cbn. split; [apply grown_refl|]. split; [done|]. by intros m [= <-]. }
  rewrite invoke_tool_run. destruct (handle t).
  - exists []. destruct (call_tool env t (call_args call)); cbn;
      (split; [apply grown_refl|]); (split; [done|]); [done | by intros m [= <-]].
  - exists [{| catalog := tools env;
               input := [HumanMessage (system_prompt env (call_args call)) None] |}].
    destruct (llm_invoke env (tools env) _); cbn;
      (split; [unfold grown; cbn; by rewrite !app_nil_r|]);
      (split; [by repeat constructor|]); [done | by intros m [= <-]].
  - exists []. destruct (call_tool env t (call_args call)); cbn;
      (split; [apply grown_refl|]); (split; [done|]); [done | by intros m [= <-]].
Qed.

(** A call whose backend returns is answered with what it returned, and
    leaves the world as it is. *)
Lemma run_one_backend env call content w :
  backend_returns env call content ->
  run_one env (tools env) call w = (inr (tool_message call content), w).
Proof.
  intros (t & Hnamed & Hremote & Hvalid & Hanswer).
  rewrite run_one_run, Hnamed, Hvalid, invoke_tool_run, Hanswer.
  by destruct (handle t).
Qed.

(** *** The tool node: results by position, whatever the completion order *)



Lemma run_in_order_cons env tool_list calls i rest slots w :
  run_in_order env tool_list calls (i :: rest) slots w
  = match calls !! i with
    | Some call =>
        match run_one env tool_list call w with
        | (inl e, w') => (inl e, w')
        | (inr result, w') =>
            run_in_order env tool_list calls rest (<[i := Some result]> slots) w'
        end
    | None => run_in_order env tool_list calls rest slots w
    end.
Proof.
  cbn [run_in_order]. destruct (calls !! i) as [call|]; [|done].
  unfold gbind. by destruct (run_one env tool_list call w) as [[e|result] w'].
Qed.

Lemma omap_slots_without_ids slots :
  slots_without_ids slots -> without_ids (omap id slots).
Proof.
  induction 1 as [|[m|] slots Hslot _ IH]; cbn; [constructor| |done].
  constructor; [by apply Hslot | done].
Qed.

(** Whatever the calls do, the gathering only adds model invocations with
    the full tool list, and fills the slots with messages without ids. *)
Lemma run_in_order_grown env tool_list calls order :
  forall slots w,
    exists mcalls,
      grown w (run_in_order env tool_list calls order slots w).2 [] mcalls []
      /\ Forall (fun c => catalog c = tools env) mcalls
      /\ forall slots',
           slots_without_ids slots ->
           (run_in_order env tool_list calls order slots w).1 = inr slots' ->
           slots_without_ids slots'.
Proof.
  induction order as [|i rest IH]; intros slots w.
  - exists []. cbn. split; [apply grown_refl|]. split; [done|].
    by intros slots' Hslots [= <-].
  - rewrite run_in_order_cons. destruct (calls !! i) as [call|]; [|apply IH].
    destruct (run_one_grown env tool_list call w) as (mc1 & Hgrow1 & Hcat1 & Hid).
    destruct (run_one env tool_list call w) as [[e|result] w1]; cbn [fst snd] in *.
    { exists mc1. cbn. split; [done|]. split; [done|]. by intros slots' _ [=]. }
    destruct (IH (<[i := Some result]> slots) w1) as (mc2 & Hgrow2 & Hcat2 & Hslots).
    exists (mc1 ++ mc2). split; [by apply (grown_trans w w1 _ [] mc1 [] [] mc2 [])|].
    split; [by apply Forall_app|].
    intros slots' Hbefore Hresult. apply Hslots; [|done].
    unfold slots_without_ids. apply Forall_insert; [done|].
    intros m [= <-]. by apply Hid.
Qed.


(** When every call returns, so does the gathering. *)
Lemma run_in_order_returns env tool_list calls order :
  (forall call w, exists m, (run_one env tool_list call w).1 = inr m) ->
  forall slots w,
    exists slots', (run_in_order env tool_list calls order slots w).1 = inr slots'.
Proof.
  intros Hreturn. induction order as [|i rest IH]; intros slots w.
  - by exists slots.
  - rewrite run_in_order_cons. destruct (calls !! i) as [call|]; [|apply IH].
    destruct (Hreturn call w) as [m Hm].
    destruct (run_one env tool_list call w) as [[e|result] w1];
      cbn [fst] in Hm; [discriminate Hm|]. apply IH.
Qed.

Lemma ToolNode_run env tool_list state content calls id w :
  last (messages state) = Some (AIMessage content calls id) ->
  ToolNode env tool_list state w
  = match run_in_order env tool_list calls (completion_order env calls)
                       (replicate (length calls) None) w with
    | (inl e, w') => (inl e, w')
    | (inr slots, w') => (inr (omap Datatypes.id slots), w')
    end.
Proof.
  intros Hlast. unfold ToolNode. rewrite Hlast. unfold gbind, gret.
  by destruct (run_in_order _ _ _ _ _ _) as [[e|slots] w'].
Qed.


Lemma ToolNode_grown env tool_list state w :
  exists mcalls,
    grown w (ToolNode env tool_list state w).2 [] mcalls []
    /\ Forall (fun c => catalog c = tools env) mcalls
    /\ forall update, (ToolNode env tool_list state w).1 = inr update -> without_ids update.
Proof.
  destruct (last (messages state)) as [[c i|c calls i|c n t i]|] eqn:Hlast.
  2: { rewrite (ToolNode_run _ _ _ _ _ _ _ Hlast).
       destruct (run_in_order_grown env tool_list calls (completion_order env calls)
                   (replicate (length calls) None) w) as (m & Hgrow & Hcat & Hslots).
       exists m.
       destruct (run_in_order _ _ _ _ _ _) as [[e|slots] w']; cbn [fst snd] in *;
         (split; [done|]); (split; [done|]); [done|].
       intros update [= <-]. apply omap_slots_without_ids, Hslots; [|done].
       apply Forall_replicate. by intros m'. }
  all: exists []; unfold ToolNode; rewrite Hlast; cbn;
    (split; [apply grown_refl|]); (split; [done|]); done.
Qed.

(** *** One step of the compiled graph *)

Lemma run_from_END g tid steps state w :
  run_from g tid (S steps) END state w = (inr state, w).
Proof. reflexivity. Qed.

Lemma run_from_S g tid steps current state w
    (action : ChatState -> G (list BaseMessage)) :
  current <> END ->
  nodes g !! current = Some action ->
  run_from g tid (S steps) current state w
  = match action state {| node_runs := node_runs w ++ [current];
                          model_calls := model_calls w;
                          checkpoints := checkpoints w |} with
    | (inl e, w2) => (inl e, w2)
    | (inr update, w2) =>
        let state' := apply_update state update in
        match next_node g current state' with
        | inl e => (inl e, w2)
        | inr next =>
            run_from g tid steps next state'
              {| node_runs := node_runs w2;
                 model_calls := model_calls w2;
                 checkpoints := checkpoints w2
                                ++ [{| thread_id := tid; values := state' |}] |}
        end
    end.
Proof.
  intros Hrun Hnode. cbn [run_from]. apply String.eqb_neq in Hrun. rewrite Hrun, Hnode.
  unfold gbind, record_node_run, put_checkpoint, lift, gret.
  destruct (action state _) as [[e|update] w2]; [done|].
  by destruct (next_node g current _) as [e|next].
Qed.

Lemma node_grown env node_name (action : ChatState -> G (list BaseMessage)) state w :
  nodes (graph env) !! node_name = Some action ->
  exists mcalls,
    grown w (action state w).2 [] mcalls []
    /\ Forall (fun c => catalog c = tools env) mcalls
    /\ forall update, (action state w).1 = inr update -> without_ids update.
Proof.
  intros [[_ ->]|[_ ->]]%graph_nodes.
  - eexists. split; [apply chat_node_grown|]. split; [by repeat constructor|].
    apply chat_node_without_ids.
  - apply ToolNode_grown.
Qed.

(** A run from any node: the world only grows, every model invocation gets
    the full tool list, every saved row belongs to the thread and extends
    the state the run started from, and a run that returns, returns the
    state saved last. *)
Lemma run_from_grown env tid steps :
  forall current state w,
    exists runs mcalls rows,
      grown w (run_from (graph env) tid steps current state w).2 runs mcalls rows
      /\ Forall (fun c => catalog c = tools env) mcalls
      /\ Forall (fun row => thread_id row = tid
                            /\ messages state `prefix_of` messages (values row)) rows
      /\ forall final,
           (run_from (graph env) tid steps current state w).1 = inr final ->
           last ({| thread_id := tid; values := state |} :: rows)
           = Some {| thread_id := tid; values := final |}.
Proof.
  induction steps as [|steps IH]; intros current state w.
  { exists [], [], []. cbn. split; [apply grown_refl|]. by repeat split. }
  destruct (decide (current = END)) as [->|Hrun].
  { exists [], [], []. rewrite run_from_END. cbn. split; [apply grown_refl|].
    split; [done|]. split; [done|]. by intros final [= <-]. }
  destruct (nodes (graph env) !! current) as [action|] eqn:Hnode.
  2: { exists [], [], []. cbn [run_from]. apply String.eqb_neq in Hrun.
       rewrite Hrun, Hnode. cbn.
       split; [apply grown_refl|]. by repeat split. }
  rewrite (run_from_S _ _ _ _ _ _ action Hrun Hnode).
  set (w1 := {| node_runs := node_runs w ++ [current];
                model_calls := model_calls w; checkpoints := checkpoints w |}).
  assert (grown w w1 [current] [] []) as Hw1.
  { unfold grown, w1. cbn. by rewrite !app_nil_r. }
  destruct (node_grown env current action state w1 Hnode) as (mc & Hgrow & Hcat & Hids).
  destruct (action state w1) as [[e|update] w2]; cbn [fst snd] in Hgrow, Hids.
  { exists [current], mc, []. cbn [fst snd].
    split; [apply (grown_trans w w1 w2 [current] [] [] [] mc [] Hw1 Hgrow)|].
    by repeat split. }
  specialize (Hids update eq_refl). cbn zeta.
  set (state' := apply_update state update).
  destruct (next_node (graph env) current state') as [e|next].
  { exists [current], mc, []. cbn [fst snd].
    split; [apply (grown_trans w w1 w2 [current] [] [] [] mc [] Hw1 Hgrow)|].
    by repeat split. }
  set (row := {| thread_id := tid; values := state' |}).
  set (w3 := {| node_runs := node_runs w2; model_calls := model_calls w2;
                checkpoints := checkpoints w2 ++ [row] |}).
  assert (grown w w3 [current] mc [row]) as Hw3.
  { apply (grown_trans w w1 w3 [current] [] [] [] mc [row] Hw1).
    destruct Hgrow as (Hruns & Hcalls & Hrows). unfold grown, w3. cbn.
    by rewrite Hruns, Hcalls, Hrows, !app_nil_r. }
  assert (thread_id row = tid /\ messages state `prefix_of` messages (values row))
    as Hrow by (split; [done | by apply apply_update_prefix]).
  destruct (IH next state' w3) as (runs' & mc' & rows' & Hgrow' & Hcat' & Hrows' & Hfinal).
  exists ([current] ++ runs'), (mc ++ mc'), ([row] ++ rows').
  split; [by eapply grown_trans|]. split; [by apply Forall_app|]. split.
  - apply Forall_app. split; [by constructor|].
    eapply Forall_impl; [exact Hrows'|]. intros r [? Hpre]. split; [done|].
    etrans; [by apply apply_update_prefix | exact Hpre].
  - intros final Hres. cbn [app]. rewrite last_cons_cons. by apply Hfinal.
Qed.


(** The chat node as a step of the graph: the model is asked with the
    messages of the state; its answer is appended, saved, and the run goes
    on at the tool node when the answer requests tools, to [END] when it
    does not. *)
Lemma run_from_chat env tid steps state w :
  run_from (graph env) tid (S steps) "chat_node" state w
  = let w2 := {| node_runs := node_runs w ++ ["chat_node"];
                 model_calls := model_calls w
                                ++ [{| catalog := tools env; input := messages state |}];
                 checkpoints := checkpoints w |} in
    match llm_invoke env (tools env) (messages state) with
    | inl e => (inl e, w2)
    | inr response =>
        let state' :=
          {| messages := messages state ++ [AIMessage response.1 response.2 None] |} in
        run_from (graph env) tid steps
          (match response.2 with [] => END | _ :: _ => "tools" end) state'
          {| node_runs := node_runs w2;
             model_calls := model_calls w2;
             checkpoints := checkpoints w2 ++ [{| thread_id := tid; values := state' |}] |}
    end.
Proof.
  rewrite (run_from_S _ _ _ "chat_node" _ _ _ ltac:(discriminate) (graph_node_chat env)),
    chat_node_run.
  cbn zeta. destruct (llm_invoke env (tools env) (messages state)) as [e|response]; [done|].
  cbn [fst snd node_runs model_calls checkpoints].
  rewrite graph_after_chat. unfold tools_condition, apply_update.
  rewrite add_messages_without_ids by (by repeat constructor).
  cbn [messages]. rewrite last_snoc. by destruct (response.2).
Qed.

Lemma run_from_tools env tid steps state w :
  run_from (graph env) tid (S steps) "tools" state w
  = match ToolNode env (tools env) state
            {| node_runs := node_runs w ++ ["tools"];
               model_calls := model_calls w;
               checkpoints := checkpoints w |} with
    | (inl e, w2) => (inl e, w2)
    | (inr update, w2) =>
        run_from (graph env) tid steps "chat_node" (apply_update state update)
          {| node_runs := node_runs w2;
             model_calls := model_calls w2;
             checkpoints := checkpoints w2
                            ++ [{| thread_id := tid;
                                   values := apply_update state update |}] |}
    end.
Proof.
  rewrite (run_from_S _ _ _ "tools" _ _ _ ltac:(discriminate) (graph_node_tools env)).
  destruct (ToolNode env (tools env) state _) as [[e|update] w2]; [done|].
  cbn zeta. by rewrite graph_after_tools.
Qed.

(** *** One turn *)

Lemma chatbot_O env tid input w :
  chatbot env 0 tid input w = (inl (ValueError "recursion_limit must be at least 1"), w).
Proof. reflexivity. Qed.

Lemma chatbot_unfold env steps tid input w :
  chatbot env (S steps) tid input w
  = run_from (graph env) tid (S steps) "chat_node"
      (apply_update (get_state tid w) input)
      {| node_runs := node_runs w;
         model_calls := model_calls w;
         checkpoints := (checkpoints w
                         ++ [{| thread_id := tid; values := get_state tid w |}])
                        ++ [{| thread_id := tid;
                               values := apply_update (get_state tid w) input |}] |}.
Proof. reflexivity. Qed.

(** A turn with a limit of at least 1 saves the state of the thread as it
    found it, then that state with the input, and then what the run from
    the chat node saves; a turn with the limit 0 saves nothing. *)
Lemma chatbot_grown env steps tid input w :
  exists runs mcalls rows,
    grown w (chatbot env steps tid input w).2 runs mcalls rows
    /\ Forall (fun c => catalog c = tools env) mcalls
    /\ Forall (fun row => thread_id row = tid) rows
    /\ (forall final,
          (chatbot env steps tid input w).1 = inr final ->
          last rows = Some {| thread_id := tid; values := final |})
    /\ (0 < steps ->
        exists rows',
          rows = {| thread_id := tid; values := get_state tid w |}
                 :: {| thread_id := tid; values := apply_update (get_state tid w) input |}
                 :: rows'
          /\ Forall (fun row => messages (apply_update (get_state tid w) input)
                                  `prefix_of` messages (values row)) rows').
Proof.
  destruct steps as [|steps].
  { exists [], [], []. rewrite chatbot_O. cbn [fst snd].
    split; [apply grown_refl|]. split; [done|]. split; [done|].
    split; [discriminate | lia]. }
  rewrite chatbot_unfold.
  set (saved := get_state tid w).
  set (state := apply_update saved input).
  set (w0 := {| node_runs := node_runs w; model_calls := model_calls w;
                checkpoints := (checkpoints w ++ [{| thread_id := tid; values := saved |}])
                               ++ [{| thread_id := tid; values := state |}] |}).
  destruct (run_from_grown env tid (S steps) "chat_node" state w0)
    as (runs & mc & rows & Hgrow & Hcat & Hrows & Hfinal).
  exists runs, mc, ({| thread_id := tid; values := saved |}
                    :: {| thread_id := tid; values := state |} :: rows).
  split.
  { apply (grown_trans w w0 _ [] [] [{| thread_id := tid; values := saved |};
                                     {| thread_id := tid; values := state |}] runs mc rows);
      [|done].
    unfold grown, w0. cbn. by rewrite !app_nil_r, <- app_assoc. }
  split; [done|]. split.
  { do 2 (constructor; [done|]). eapply Forall_impl; [exact Hrows|]. by intros ? [? _]. }
  split.
  { intros final Hres. rewrite last_cons_cons. by apply Hfinal. }
  intros _. exists rows. split; [done|].
  eapply Forall_impl; [exact Hrows|]. by intros ? [_ ?].
Qed.

Lemma thread_rows_app tid rows rows' :
  thread_rows tid (rows ++ rows') = thread_rows tid rows ++ thread_rows tid rows'.
Proof. apply filter_app. Qed.

Lemma thread_rows_own tid rows :
  Forall (fun row => thread_id row = tid) rows -> thread_rows tid rows = rows.
Proof.
  induction 1 as [|row rows Hrow _ IH]; [done|].
  unfold thread_rows in *. rewrite filter_cons_True by done. by rewrite IH.
Qed.

Lemma thread_rows_other tid tid' rows :
  tid <> tid' ->
  Forall (fun row => thread_id row = tid) rows -> thread_rows tid' rows = [].
Proof.
  intros Hne. induction 1 as [|row rows Hrow _ IH]; [done|].
  unfold thread_rows in *. rewrite filter_cons_False by congruence. done.
Qed.

(** The state of a thread after rows of that thread were saved is the
    state of the newest of them. *)
Lemma get_state_after tid w w' rows row :
  checkpoints w' = checkpoints w ++ rows ->
  Forall (fun r => thread_id r = tid) rows ->
  last rows = Some row ->
  get_state tid w' = values row.
Proof.
  intros Hrows Hown Hlast. unfold get_state.
  rewrite Hrows, thread_rows_app, (thread_rows_own tid rows Hown), last_app, Hlast.
  done.
Qed.

Lemma get_state_other tid tid' w w' rows :
  tid <> tid' ->
  checkpoints w' = checkpoints w ++ rows ->
  Forall (fun r => thread_id r = tid) rows ->
  get_state tid' w' = get_state tid' w.
Proof.
  intros Hne Hrows Hown. unfold get_state.
  by rewrite Hrows, thread_rows_app, (thread_rows_other tid tid' rows Hne Hown), app_nil_r.
Qed.


(** A turn on one thread leaves the state of the other threads alone. *)
Lemma chatbot_other_thread env steps tid tid' input w :
  tid <> tid' ->
  get_state tid' (chatbot env steps tid input w).2 = get_state tid' w.
Proof.
  intros Hne.
  destruct (chatbot_grown env steps tid input w)
    as (runs & mc & rows & (_ & _ & Hrows) & _ & Hown & _).
  exact (get_state_other tid tid' w _ _ Hne Hrows Hown).
Qed.

(** A run keeps what the thread already holds: the state it starts from,
    once saved as the newest row, is a prefix of the state of the thread
    after the run, whatever the outcome. *)
Lemma run_from_keeps env tid steps current state w earlier :
  checkpoints w = earlier ++ [{| thread_id := tid; values := state |}] ->
  messages state
    `prefix_of` messages (get_state tid (run_from (graph env) tid steps current state w).2).
Proof.
  intros Hsaved.
  destruct (run_from_grown env tid steps current state w)
    as (runs & mc & rows & (_ & _ & Hrows) & _ & Hown & _).
  set (row0 := {| thread_id := tid; values := state |}) in *.
  assert (Forall (fun r => thread_id r = tid
                           /\ messages state `prefix_of` messages (values r))
                 (row0 :: rows)) as Hall by (constructor; done).
  destruct (last (row0 :: rows)) as [row|] eqn:Hlast.
  2: { by apply last_None in Hlast. }
  assert (row ∈ row0 :: rows) as Hin.
  { apply last_Some in Hlast as [l' ->]. apply elem_of_app. right. apply list_elem_of_here. }
  rewrite Forall_forall in Hall. destruct (Hall row Hin) as [_ Hprefix].
  rewrite (get_state_after tid {| node_runs := []; model_calls := []; checkpoints := earlier |}
             _ (row0 :: rows) row); [done| |
    by eapply Forall_impl; [apply Forall_forall, Hall | intros ? [? _]] | done].
  rewrite Hrows, Hsaved. cbn. by rewrite <- app_assoc.
Qed.

(** The state of a thread is that of its row when that row is the newest
    of all. *)
Lemma get_state_newest tid runs calls rows state :
  get_state tid {| node_runs := runs; model_calls := calls;
                   checkpoints := rows ++ [{| thread_id := tid; values := state |}] |}
  = state.
Proof.
  unfold get_state. cbn [checkpoints].
  rewrite thread_rows_app, (thread_rows_own tid [_]) by (repeat constructor).
  by rewrite last_snoc.
Qed.

(** C2. When the model answers the history and the new input without any
    tool call, a turn with a step limit of at least 2 returns after one run
    of the chat node and one model invocation, and the thread then holds
    what it held, merged with the input by the reducer, and exactly one
    more message: the assistant's answer.  When the input carries no ids,
    that is the earlier messages, the input and the answer. *)
Theorem final_answer_ends_turn
    (env : Env) (steps : nat) (tid : string) (input : list BaseMessage)
    (w : World) (content : string) :
  1 < steps ->
  llm_invoke env (tools env) (add_messages (messages (get_state tid w)) input)
  = inr (content, []) ->
  (chatbot env steps tid input w).1
  = inr {| messages := add_messages (messages (get_state tid w)) input
                       ++ [AIMessage content [] None] |}
  /\ node_runs (chatbot env steps tid input w).2 = node_runs w ++ ["chat_node"]
  /\ model_calls (chatbot env steps tid input w).2
     = model_calls w
       ++ [{| catalog := tools env;
              input := add_messages (messages (get_state tid w)) input |}]
  /\ messages (get_state tid (chatbot env steps tid input w).2)
     = add_messages (messages (get_state tid w)) input ++ [AIMessage content [] None]
  /\ role (AIMessage content [] None) = assistant
  /\ (without_ids input ->
      messages (get_state tid (chatbot env steps tid input w).2)
      = messages (get_state tid w) ++ input ++ [AIMessage content [] None]).
Proof.
  intros Hsteps Hanswer. destruct steps as [|[|steps]]; [lia..|].
  set (merged := add_messages (messages (get_state tid w)) input) in *.
  assert (chatbot env (S (S steps)) tid input w
          = (inr {| messages := merged ++ [AIMessage content [] None] |},
             {| node_runs := node_runs w ++ ["chat_node"];
                model_calls := model_calls w ++ [{| catalog := tools env; input := merged |}];
                checkpoints :=
                  ((checkpoints w ++ [{| thread_id := tid; values := get_state tid w |}])
                   ++ [{| thread_id := tid;
                          values := apply_update (get_state tid w) input |}])
                  ++ [{| thread_id := tid;
                         values := {| messages := merged ++ [AIMessage content [] None] |}
                      |}] |})) as ->.
  { rewrite chatbot_unfold, run_from_chat. cbn zeta.
    change (messages (apply_update (get_state tid w) input)) with merged.
    rewrite Hanswer. cbn [fst snd]. by rewrite run_from_END. }
  cbn [fst snd node_runs model_calls].
  rewrite get_state_newest. cbn [messages].
  split; [done|]. split; [done|]. split; [done|]. split; [done|].
  split; [done|]. intros Hids. unfold merged. rewrite add_messages_without_ids by done.
  by rewrite <- app_assoc.
Qed.

Lemma final_answer_ends_turn_witness :
  (chatbot env_answers 25 "thread-1" [HumanMessage "Plan a trip to Paris" None]
           (started [])).1
  = inr {| messages := [HumanMessage "Plan a trip to Paris" None;
                        AIMessage "Here is your itinerary." [] None] |}
  /\ node_runs (chatbot env_answers 25 "thread-1"
                        [HumanMessage "Plan a trip to Paris" None] (started [])).2
     = ["chat_node"].
Proof.
  destruct (final_answer_ends_turn env_answers 25 "thread-1"
              [HumanMessage "Plan a trip to Paris" None] (started [])
              "Here is your itinerary.") as (Hresult & Hruns & _).
  - lia.
  - reflexivity.
  - split; [exact Hresult | exact Hruns].
Defined.

(** With a step limit of 1 the same turn runs the chat node, saves the
    answer and then raises: the limit is tested again before the run can
    find that nothing is left to do. *)
Example final_answer_with_limit_one :
  (chatbot env_answers 1 "thread-1" [HumanMessage "Plan a trip to Paris" None]
           (started [])).1
  = inl GraphRecursionError
  /\ messages (get_state "thread-1"
                 (chatbot env_answers 1 "thread-1"
                          [HumanMessage "Plan a trip to Paris" None] (started [])).2)
     = [HumanMessage "Plan a trip to Paris" None;
        AIMessage "Here is your itinerary." [] None].
Proof. split; vm_compute; reflexivity. Qed.




(** The same turn with the weather backend answering first, and with the
    hotel backend answering first: the thread is the same. *)
Example answers_in_request_order_either_way :
  let weather_first call := if String.eqb (call_id call) "call_B" then 1 else 9 in
  let hotels_first call := if String.eqb (call_id call) "call_A" then 1 else 9 in
  completion_order (with_latency env_asks_once weather_first) [call_hotels; call_weather]
  = [1; 0]
  /\ completion_order (with_latency env_asks_once hotels_first) [call_hotels; call_weather]
     = [0; 1]
  /\ (chatbot (with_latency env_asks_once weather_first) 25 "thread-1"
              [HumanMessage "Plan a trip to Paris" None] (started [])).1
     = inr {| messages :=
                [HumanMessage "Plan a trip to Paris" None;
                 AIMessage "" [call_hotels; call_weather] None;
                 ToolMessage "result of search_hotels" "search_hotels" "call_A" None;
                 ToolMessage "result of get_weather_forecast" "get_weather_forecast"
                             "call_B" None;
                 AIMessage "Here is your itinerary." [] None] |}
  /\ (chatbot (with_latency env_asks_once hotels_first) 25 "thread-1"
              [HumanMessage "Plan a trip to Paris" None] (started [])).1
     = (chatbot (with_latency env_asks_once weather_first) 25 "thread-1"
                [HumanMessage "Plan a trip to Paris" None] (started [])).1.
Proof.
  cbn zeta.
  split; [vm_compute; reflexivity|].
  split; [vm_compute; reflexivity|].
  split; vm_compute; reflexivity.
Qed.

(** A backend that raises ends the turn: its exception leaves the tool
    node, no tool message is saved, and the calls that would have completed
    later are not waited for. *)
Example raising_backend_ends_the_turn :
  let env :=
    {| discover := all_servers_up;
       llm_invoke := model_asks_once;
       validation_error := fun _ _ => None;
       call_tool := fun t _ =>
         if String.eqb (name t) "search_hotels" then raise (OtherError "timeout")
         else ret ("result of " ++ name t)%string;
       latency := fun call => String.length (call_name call);
       system_prompt := fun _ => "";
       message_str := fun _ _ => "" |} in
  (chatbot env 25 "thread-1" [HumanMessage "Plan a trip to Paris" None] (started [])).1
  = inl (OtherError "timeout")
  /\ messages (get_state "thread-1"
                 (chatbot env 25 "thread-1" [HumanMessage "Plan a trip to Paris" None]
                          (started [])).2)
     = [HumanMessage "Plan a trip to Paris" None;
        AIMessage "" [call_hotels; call_weather] None].
Proof. cbn zeta. split; vm_compute; reflexivity. Qed.

(** *** A model that never stops asking for tools *)

Lemma length_alternation n current other : length (alternation n current other) = n.
Proof.
  revert current other. induction n as [|n IH]; intros current other; [done|].
  cbn. by rewrite IH.
Qed.

(** When the model and the backends return, so does every call. *)
Lemma run_one_returns env tool_list call w :
  (forall msgs, exists response, llm_invoke env (tools env) msgs = inr response) ->
  (forall t arguments, exists answer, call_tool env t arguments = inr answer) ->
  exists m, (run_one env tool_list call w).1 = inr m.
Proof.
  intros Hmodel Hbackend. rewrite run_one_run.
  destruct (tool_named tool_list (call_name call)) as [t|]; [|by eexists].
  destruct (validation_error env t (call_args call)); [by eexists|].
  rewrite invoke_tool_run.
  destruct (Hbackend t (call_args call)) as [answer Hanswer].
  destruct (Hmodel [HumanMessage (system_prompt env (call_args call)) None])
    as [response Hresponse].
  destruct (handle t); rewrite ?Hanswer, ?Hresponse; by eexists.
Qed.

Lemma ToolNode_returns env state content calls id w :
  (forall msgs, exists response, llm_invoke env (tools env) msgs = inr response) ->
  (forall t arguments, exists answer, call_tool env t arguments = inr answer) ->
  last (messages state) = Some (AIMessage content calls id) ->
  exists update,
    (ToolNode env (tools env) state w).1 = inr update
    /\ node_runs (ToolNode env (tools env) state w).2 = node_runs w.
Proof.
  intros Hmodel Hbackend Hlast.
  destruct (ToolNode_grown env (tools env) state w) as (mc & (Hruns & _) & _).
  rewrite app_nil_r in Hruns.
  rewrite (ToolNode_run _ _ _ _ _ _ _ Hlast) in *.
  destruct (run_in_order_returns env (tools env) calls (completion_order env calls)
              (fun call w' => run_one_returns env (tools env) call w' Hmodel Hbackend)
              (replicate (length calls) None) w) as [slots Hslots].
  destruct (run_in_order _ _ _ _ _ _) as [[e|slots'] w']; cbn [fst snd] in *;
    [discriminate Hslots|].
  by eexists.
Qed.

Lemma run_from_always_asks env tid steps :
  (forall msgs, exists content call calls,
      llm_invoke env (tools env) msgs = inr (content, call :: calls)) ->
  (forall t arguments, exists answer, call_tool env t arguments = inr answer) ->
  (forall state w,
      (run_from (graph env) tid steps "chat_node" state w).1 = inl GraphRecursionError
      /\ node_runs (run_from (graph env) tid steps "chat_node" state w).2
         = node_runs w ++ alternation steps "chat_node" "tools")
  /\ (forall state w content calls id,
        last (messages state) = Some (AIMessage content calls id) ->
        (run_from (graph env) tid steps "tools" state w).1 = inl GraphRecursionError
        /\ node_runs (run_from (graph env) tid steps "tools" state w).2
           = node_runs w ++ alternation steps "tools" "chat_node").
Proof.
  intros Hasks Hbackend.
  assert (forall msgs, exists response, llm_invoke env (tools env) msgs = inr response)
    as Hmodel.
  { intros msgs. destruct (Hasks msgs) as (content & call & calls & ->). by eexists. }
  induction steps as [|steps [IHchat IHtools]].
  { split; intros; cbn; by rewrite app_nil_r. }
  split.
  - intros state w. rewrite run_from_chat. cbn zeta.
    destruct (Hasks (messages state)) as (content & call & calls & ->).
    cbn [fst snd node_runs].
    match goal with
    | |- context [run_from _ _ _ _ ?state' ?world] =>
        destruct (IHtools state' world content (call :: calls) None) as [-> ->];
          [cbn [messages]; apply last_snoc|]
    end.
    split; [done|]. cbn [node_runs alternation]. by rewrite <- app_assoc.
  - intros state w content calls id Hlast. rewrite run_from_tools.
    match goal with
    | |- context [ToolNode env (tools env) state ?world] =>
        destruct (ToolNode_returns env state content calls id world Hmodel Hbackend Hlast)
          as (update & Hresult & Hruns);
        destruct (ToolNode env (tools env) state world) as [[e|update'] w2]
    end; cbn [fst snd] in Hresult, Hruns; [discriminate Hresult|].
    match goal with
    | |- context [run_from _ _ _ _ ?state' ?world] =>
        destruct (IHchat state' world) as [-> ->]
    end.
    split; [done|]. cbn [node_runs alternation].
    rewrite Hruns. cbn [node_runs]. by rewrite <- app_assoc.
Qed.

(** C1, as the claim states it, fails: with a step limit of 4 and a model
    that asks for a tool every time, the turn is ended by the recursion
    error of the graph library after four node runs, which are two visits
    of the model and two tool rounds - two cycles, not four. *)
Lemma step_limit_four_allows_two_cycles :
  (chatbot env_always_asks 4 "thread-1" [HumanMessage "Plan a trip to Paris" None]
           (started [])).1
  = inl GraphRecursionError
  /\ node_runs (chatbot env_always_asks 4 "thread-1"
                        [HumanMessage "Plan a trip to Paris" None] (started [])).2
     = ["chat_node"; "tools"; "chat_node"; "tools"]
  /\ length (filter (fun node_name => node_name = "chat_node")
                    (node_runs (chatbot env_always_asks 4 "thread-1"
                                        [HumanMessage "Plan a trip to Paris" None]
                                        (started [])).2))
     <> 4.
Proof.
  split; [vm_compute; reflexivity|].
  split; [vm_compute; reflexivity|].
  vm_compute. discriminate.
Qed.

(** C1, amended. The graph of the source sets no limit of its own.  With a
    step limit of at least 1, a model that requests a tool call every time
    and tool backends that return, the chat node and the tool node take
    turns until the step limit given by the caller is used up; the limit
    counts every node run (model visit or tool round), and the turn then
    ends with the recursion error of the graph library, the thread keeping
    what was saved. *)
Theorem always_asking_model_uses_up_step_limit
    (env : Env) (steps : nat) (tid : string) (input : list BaseMessage) (w : World) :
  0 < steps ->
  (forall msgs, exists content call calls,
      llm_invoke env (tools env) msgs = inr (content, call :: calls)) ->
  (forall t arguments, exists answer, call_tool env t arguments = inr answer) ->
  (chatbot env steps tid input w).1 = inl GraphRecursionError
  /\ node_runs (chatbot env steps tid input w).2
     = node_runs w ++ alternation steps "chat_node" "tools"
  /\ length (node_runs (chatbot env steps tid input w).2) = length (node_runs w) + steps
  /\ add_messages (messages (get_state tid w)) input
       `prefix_of` messages (get_state tid (chatbot env steps tid input w).2).
Proof.
  intros Hsteps Hasks Hbackend. destruct steps as [|steps]; [lia|].
  destruct (run_from_always_asks env tid (S steps) Hasks Hbackend) as [Hchat _].
  rewrite chatbot_unfold.
  match goal with
  | |- context [run_from _ _ _ _ ?state ?world] =>
      destruct (Hchat state world) as [Hresult Hruns];
      pose proof (run_from_keeps env tid (S steps) "chat_node" state world
                    (checkpoints w ++ [{| thread_id := tid; values := get_state tid w |}])
                    eq_refl) as Hkept
  end.
  rewrite Hresult, Hruns. cbn [node_runs].
  split; [done|]. split; [done|]. split; [|exact Hkept].
  by rewrite length_app, length_alternation.
Qed.

Lemma always_asking_model_uses_up_step_limit_witness :
  (chatbot env_always_asks 25 "thread-1" [HumanMessage "Plan a trip to Paris" None]
           (started [])).1
  = inl GraphRecursionError.
Proof.
  apply (always_asking_model_uses_up_step_limit env_always_asks 25 "thread-1"
           [HumanMessage "Plan a trip to Paris" None] (started [])).
  - lia.
  - intros msgs. exists "", call_hotels, []. reflexivity.
  - intros t arguments. by eexists.
Defined.

(** A step limit of 0 is refused: nothing is run and nothing is saved. *)
Example step_limit_zero_is_refused :
  chatbot env_always_asks 0 "thread-1" [HumanMessage "Plan a trip to Paris" None]
          (started [])
  = (inl (ValueError "recursion_limit must be at least 1"), started []).
Proof. reflexivity. Qed.

(** *** Sessions: several turns, and the threads that are listed *)

Lemma run_turns_cons env turn turns w :
  run_turns env (turn :: turns) w
  = run_turns env turns (chatbot env turn.1.1 turn.1.2 turn.2 w).2.
Proof. reflexivity. Qed.

Lemma run_turns_model_calls env turns :
  forall w,
    Forall (fun c => catalog c = tools env) (model_calls w) ->
    Forall (fun c => catalog c = tools env) (model_calls (run_turns env turns w)).
Proof.
  induction turns as [|turn turns IH]; intros w Hw; [done|].
  rewrite run_turns_cons. apply IH.
  destruct (chatbot_grown env turn.1.1 turn.1.2 turn.2 w)
    as (runs & mc & rows & (_ & -> & _) & Hcat & _).
  by apply Forall_app.
Qed.

(** C6. The tool list is the two local tools followed by the discovered
    ones in discovery order, and in a session - any number of turns on any
    threads after start-up - every model invocation is given that same
    list: the catalogs of any two invocations are equal as ordered lists. *)
Theorem every_model_invocation_gets_the_tool_list
    (env : Env) (turns : list Turn) (rows : list Checkpoint)
    (i j : nat) (first second : ModelCall) :
  model_calls (run_turns env turns (started rows)) !! i = Some first ->
  model_calls (run_turns env turns (started rows)) !! j = Some second ->
  catalog first = catalog second
  /\ catalog first = tools env
  /\ tools env = search_tool :: build_itinerary :: mcp_tools env.
Proof.
  intros Hfirst Hsecond.
  pose proof (run_turns_model_calls env turns (started rows) (Forall_nil_2 _)) as Hall.
  rewrite Forall_lookup in Hall.
  split; [|split; [|reflexivity]].
  - by rewrite (Hall i first Hfirst), (Hall j second Hsecond).
  - exact (Hall i first Hfirst).
Qed.

Lemma every_model_invocation_gets_the_tool_list_witness :
  catalog {| catalog := tools env_asks_once;
             input := [HumanMessage "Plan a trip to Paris" None] |}
  = catalog {| catalog := tools env_asks_once;
               input := [HumanMessage "And the weather?" None] |}.
Proof.
  apply (every_model_invocation_gets_the_tool_list env_asks_once
           [(25, "thread-1", [HumanMessage "Plan a trip to Paris" None]);
            (25, "thread-2", [HumanMessage "And the weather?" None])]
           [] 0 2).
  - vm_compute. reflexivity.
  - vm_compute. reflexivity.
Defined.




(** The set collected by the loop of lines 174-176. *)
Lemma threads_collected (rows : list Checkpoint) (threads : gset string) :
  foldl (fun threads checkpoint => threads ∪ {[thread_id checkpoint]}) threads rows
  = threads ∪ list_to_set (thread_id <$> rows).
Proof.
  revert threads. induction rows as [|row rows IH]; intros threads; cbn.
  - by rewrite (right_id_L _ _).
  - rewrite IH. by rewrite (assoc_L _).
Qed.

Lemma _alist_threads_set w :
  _alist_threads w = elements (list_to_set (C := gset string) (thread_id <$> checkpoints w)).
Proof.
  unfold _alist_threads, alist. rewrite threads_collected, (left_id_L _ _).
  f_equal. apply set_eq. intros tid.
  rewrite !elem_of_list_to_set, !list_elem_of_fmap.
  by setoid_rewrite list_elem_of_In; setoid_rewrite <- in_rev.
Qed.

Lemma retrieve_all_threads_set w :
  retrieve_all_threads w
  = elements (list_to_set (C := gset string) (thread_id <$> checkpoints w)).
Proof. apply _alist_threads_set. Qed.

Lemma elem_of_retrieve_all_threads tid w :
  tid ∈ retrieve_all_threads w <-> exists row, row ∈ checkpoints w /\ thread_id row = tid.
Proof.
  rewrite retrieve_all_threads_set, elem_of_elements,
    elem_of_list_to_set, list_elem_of_fmap.
  split; intros (row & ? & ?); exists row; done.
Qed.

Lemma NoDup_retrieve_all_threads w : NoDup (retrieve_all_threads w).
Proof. rewrite retrieve_all_threads_set. apply NoDup_elements. Qed.

(** C8. For a thread id no saved row carries, the state of the thread is
    empty (reading it is not an error); once a first user message is sent
    to it in a turn with a step limit of at least 1, whatever the outcome
    of the turn, the id is listed, once, and the listing is otherwise what
    it was: exactly one thread is new. *)
Theorem new_thread_is_empty_then_listed_once
    (env : Env) (steps : nat) (tid : string) (content : string) (id : option string)
    (w : World) :
  0 < steps ->
  tid ∉ retrieve_all_threads w ->
  messages (get_state tid w) = []
  /\ retrieve_all_threads (chatbot env steps tid [HumanMessage content id] w).2
       ≡ₚ tid :: retrieve_all_threads w
  /\ NoDup (retrieve_all_threads (chatbot env steps tid [HumanMessage content id] w).2)
  /\ length (retrieve_all_threads (chatbot env steps tid [HumanMessage content id] w).2)
     = S (length (retrieve_all_threads w)).
Proof.
  intros Hsteps Hnew.
  assert (retrieve_all_threads (chatbot env steps tid [HumanMessage content id] w).2
            ≡ₚ tid :: retrieve_all_threads w) as Hperm.
  { destruct (chatbot_grown env steps tid [HumanMessage content id] w)
      as (runs & mc & rows & (_ & _ & Hrows) & _ & Hown & _ & Hshape).
    destruct (Hshape Hsteps) as (rows' & Heq & _).
    rewrite retrieve_all_threads_set in Hnew. rewrite !retrieve_all_threads_set.
    rewrite Hrows, fmap_app, list_to_set_app_L.
    assert (list_to_set (C := gset string) (thread_id <$> rows) = {[tid]}) as ->.
    { apply set_eq. intros tid'.
      rewrite elem_of_list_to_set, elem_of_singleton, list_elem_of_fmap.
      split.
      - intros (row & -> & Hrow). rewrite Forall_forall in Hown. by apply Hown.
      - intros ->. eexists. split; [|rewrite Heq; apply list_elem_of_here]. done. }
    rewrite (comm_L _ _ {[tid]}). apply elements_union_singleton.
    by rewrite elem_of_elements in Hnew. }
  split; [|split; [exact Hperm|split; [apply NoDup_retrieve_all_threads|by rewrite Hperm]]].
  unfold get_state.
  assert (thread_rows tid (checkpoints w) = []) as ->; [|done].
  apply elem_of_nil_inv. intros row [Htid Hrow]%list_elem_of_filter. apply Hnew.
  apply elem_of_retrieve_all_threads. by exists row.
Qed.

Lemma new_thread_is_empty_then_listed_once_witness :
  retrieve_all_threads
    (chatbot env_answers 25 "thread-2" [HumanMessage "Hi" None]
       (chatbot env_answers 25 "thread-1" [HumanMessage "Hello" None] (started [])).2).2
    ≡ₚ ["thread-2"; "thread-1"].
Proof.
  apply (new_thread_is_empty_then_listed_once env_answers 25 "thread-2" "Hi" None
           (chatbot env_answers 25 "thread-1" [HumanMessage "Hello" None] (started [])).2).
  - lia.
  - vm_compute. intros Hin.
    apply elem_of_cons in Hin as [Heq|Hin]; [discriminate Heq|].
    by apply elem_of_nil in Hin.
Defined.

Example threads_listed_once_each :
  retrieve_all_threads
    (run_turns env_asks_once
       [(25, "thread-1", [HumanMessage "Plan a trip to Paris" None]);
        (25, "thread-2", [HumanMessage "Hello" None]);
        (25, "thread-1", [HumanMessage "And Rome?" None])]
       (started []))
  ≡ₚ ["thread-1"; "thread-2"].
Proof. vm_compute. first [reflexivity | apply Permutation_swap]. Qed.

End GraphProperties.


(** ** More on the flight tools *)

Section FlightsBehaviour.
Import Py Flights.
Local Open Scope list_scope.

Lemma bind_returns {A B} (m : M A) (f : A -> M B) (y : B) :
  bind m f = inr y -> exists x, m = inr x /\ f x = inr y.
Proof. destruct m as [e|x]; cbn; [discriminate | eauto]. Qed.

Lemma getitem_line line v k e : getitem line v k = inl e -> exn_line e = Some line.
Proof. intros [->| ->]%getitem_raises; reflexivity. Qed.

Lemma getindex_line line v i e : getindex line v i = inl e -> exn_line e = Some line.
Proof. intros [->|[->| ->]]%getindex_raises; reflexivity. Qed.

Lemma get_line line v k d e : get line v k d = inl e -> exn_line e = Some line.
Proof. intros ->%get_raises. reflexivity. Qed.

Lemma lower_raises line v e : lower line v = inl e -> e = AttributeError line.
Proof. unfold lower, ret, raise. destruct v; congruence. Qed.

Lemma iter_raises line v e : iter line v = inl e -> e = TypeError line.
Proof. unfold iter, ret, raise. destruct v; congruence. Qed.

(** What succeeds on one line succeeds on any other: the line only tags the
    exception. *)
Lemma getitem_any_line line line' v k x :
  getitem line v k = inr x -> getitem line' v k = inr x.
Proof. unfold getitem, ret, raise. repeat case_match; congruence. Qed.

Lemma getindex_any_line line line' v i x :
  getindex line v i = inr x -> getindex line' v i = inr x.
Proof.
  unfold getindex, seq_index, bind, ret, raise. repeat case_match; congruence.
Qed.

Lemma get_any_line line line' v k d x :
  get line v k d = inr x -> get line' v k d = inr x.
Proof. unfold get, ret, raise. destruct v; congruence. Qed.

(** *** The airport lookup *)

(** X1. When the airport search answers but its body is unusable - it is
    not JSON, it is not an object, it has no "data", or "data" is empty -
    get_airport_code returns None and raises nothing. *)
Theorem get_airport_code_none_without_data
    (env : Env) (location : string) (response : M value) :
  requests_get env location = inr response ->
  (forall d, response = inr (VDict d) ->
             truthy (default (VList []) (dict_lookup d "data")) = false) ->
  get_airport_code env location = inr VNone.
Proof.
  intros Hrequest Hbody. unfold get_airport_code. rewrite Hrequest. cbn [bind].
  destruct response as [e|body]; [reflexivity|]. cbn [bind].
  destruct body as [| | | | |d]; try reflexivity.
  cbn [get ret]. by rewrite (Hbody d eq_refl).
Qed.

Lemma get_airport_code_none_without_data_witness :
  get_airport_code env_backend_error "Atlantis" = inr VNone.
Proof.
  apply (get_airport_code_none_without_data env_backend_error "Atlantis"
           (inr (VDict []))).
  - reflexivity.
  - intros d [= <-]. reflexivity.
Defined.

(** X2. The airport lookups stand before the [try] of the two tools: an
    exception of a lookup leaves search_flights and get_cheapest_flight as
    it is, even a ResponseError, which the handler below would have turned
    into an error mapping. *)
Theorem lookup_exception_escapes_the_tools
    (env : Env) (origin destination departure_date : string) (num_adults : Z)
    (e : exn) :
  get_airport_code env origin = inl e
  \/ (exists code, get_airport_code env origin = inr code
                   /\ get_airport_code env destination = inl e) ->
  search_flights env origin destination departure_date num_adults = inl e
  /\ get_cheapest_flight env origin destination = inl e.
Proof.
  unfold search_flights, get_cheapest_flight.
  intros [-> | (code & -> & ->)]; split; reflexivity.
Qed.

Lemma lookup_exception_escapes_the_tools_witness :
  search_flights
    {| requests_get := fun _ => raise (ResponseError "airport search is down");
       flight_offers_search_get := fun _ => ret (VList []) |}
    "London" "Paris" "2025-06-01" 1
  = inl (ResponseError "airport search is down").
Proof.
  apply (lookup_exception_escapes_the_tools
           {| requests_get := fun _ => raise (ResponseError "airport search is down");
              flight_offers_search_get := fun _ => ret (VList []) |}
           "London" "Paris" "2025-06-01" 1 (ResponseError "airport search is down")).
  left. reflexivity.
Defined.

(** *** The score of an airport *)

Lemma airport_bonus_cases (entity : value) (s : Z) (P : Z -> Prop) :
  P s -> P (s + 2)%Z ->
  P (match entity with
     | VStr "AIRPORT" => (s + 2)%Z
     | _ => s
     end).
Proof.
  intros Hs Hbonus.
  repeat match goal with
  | |- P (match ?x with _ => _ end) => destruct x; try assumption
  end.
Qed.

Lemma airport_score_cases (query : string) (item : value) :
  match airport_score query item with
  | inr score => score ∈ [0; 2; 5; 7; 10; 12]%Z /\ (0 <= score <= 12)%Z
  | inl e => e ∈ [AttributeError 44; AttributeError 45; AttributeError 55]
  end.
Proof.
  unfold airport_score.
  repeat match goal with
  | |- match bind ?m _ with _ => _ end =>
      let H := fresh "H" in
      destruct m as [?e|?x] eqn:H; cbn [bind];
      [ first [apply get_raises in H | apply lower_raises in H]; subst;
        repeat first [apply list_elem_of_here | apply list_elem_of_further] |]
  end.
  cbn [ret]. cbn zeta.
  match goal with
  | |- ?score ∈ _ /\ _ => pattern score; apply airport_bonus_cases
  end;
    destruct (str_contains query x1), (str_contains query x4);
    (split; [repeat first [apply list_elem_of_here | apply list_elem_of_further] | lia]).
Qed.

(** X3. airport_score gives one of the scores 0, 2, 5, 7, 10, 12 - at most
    12 - or raises AttributeError on line 44, 45 or 55; it raises nothing
    else, a missing key in particular being no error. *)
Theorem airport_score_outcomes (query : string) (item : value) :
  match airport_score query item with
  | inr score => score ∈ [0; 2; 5; 7; 10; 12]%Z /\ (0 <= score <= 12)%Z
  | inl e => e ∈ [AttributeError 44; AttributeError 45; AttributeError 55]
  end.
Proof. apply airport_score_cases. Qed.

(** X4. An item without "presentation" and without "navigation" is scored,
    not refused: it gets 0, or 10 when the query is empty, an empty query
    being found in every title. *)
Theorem airport_score_of_bare_item (query : string) (d : list (string * value)) :
  dict_lookup d "presentation" = None ->
  dict_lookup d "navigation" = None ->
  airport_score query (VDict d) = inr (if String.eqb query "" then 10 else 0)%Z.
Proof.
  intros Hpresentation Hnavigation. unfold airport_score.
  cbn [get ret bind]. rewrite Hpresentation, Hnavigation.
  cbn [default dict_lookup get lower str_lower ret bind str_contains].
  destruct query; reflexivity.
Qed.

Lemma airport_score_of_bare_item_witness :
  airport_score "london" (VDict [("skyId", VStr "LOND")]) = inr 0%Z.
Proof.
  apply (airport_score_of_bare_item "london" [("skyId", VStr "LOND")]); reflexivity.
Defined.

(** *** Which airport is chosen *)

Lemma head_insert_desc {A} (k : Z) (x : A) (l : list (Z * A)) :
  head (insert_desc k x l)
  = match head l with
    | None => Some (k, x)
    | Some (k', y) => if (k' <=? k)%Z then Some (k, x) else Some (k', y)
    end.
Proof. destruct l as [|[k' y] l]; cbn; [done|]. by destruct (k' <=? k)%Z. Qed.

(** The head of the sorted list is the first of the largest keys. *)
Lemma head_sorted_desc {A} (l : list (Z * A)) :
  l <> [] ->
  exists i k x,
    l !! i = Some (k, x)
    /\ head (sorted_desc l) = Some (k, x)
    /\ (forall j k' y, l !! j = Some (k', y) -> (k' <= k)%Z)
    /\ (forall j k' y, j < i -> l !! j = Some (k', y) -> (k' < k)%Z).
Proof.
  induction l as [|[k0 x0] rest IH]; [done|]. intros _.
  cbn [sorted_desc]. rewrite head_insert_desc.
  destruct rest as [|entry rest'].
  { exists 0, k0, x0. cbn. split; [done|]. split; [done|]. split.
    - intros [|j] k' y; cbn; [intros [= -> _]; lia | done].
    - intros j k' y Hj. lia. }
  destruct IH as (i & k & x & Hi & -> & Hmax & Hfirst); [done|].
  destruct (Z.leb_spec k k0) as [Hle|Hlt].
  - exists 0, k0, x0. cbn [lookup list_lookup]. split; [done|]. split; [done|]. split.
    + intros [|j] k' y; cbn [lookup list_lookup]; [intros [= -> _]; lia|].
      intros Hj. specialize (Hmax j k' y Hj). lia.
    + intros j k' y Hj. lia.
  - exists (S i), k, x. split; [exact Hi|]. split; [done|]. split.
    + intros [|j] k' y; cbn [lookup list_lookup]; [intros [= -> _]; lia|].
      apply Hmax.
    + intros [|j] k' y Hj; cbn [lookup list_lookup]; [intros [= -> _]; lia|].
      apply Hfirst. lia.
Qed.

Lemma map_m_returns {A B} (f : A -> M B) (xs : list A) (ys : list B) :
  map_m f xs = inr ys ->
  length ys = length xs
  /\ forall i x, xs !! i = Some x -> exists y, ys !! i = Some y /\ f x = inr y.
Proof.
  revert ys. induction xs as [|x xs IH]; intros ys; cbn [map_m].
  - intros [= <-]. split; [done|]. intros i x. by rewrite lookup_nil.
  - intros (y & Hy & (ys' & Hys' & [= <-])%bind_returns)%bind_returns.
    destruct (IH ys' Hys') as [Hlen Hall]. split; [cbn; by rewrite Hlen|].
    intros [|i] x'; cbn [lookup list_lookup]; [intros [= <-]; eauto|]. apply Hall.
Qed.

Lemma map_m_raises {A B} (f : A -> M B) (xs : list A) (e : exn) :
  map_m f xs = inl e -> exists x, x ∈ xs /\ f x = inl e.
Proof.
  induction xs as [|x xs IH]; cbn [map_m]; [discriminate|].
  intros [Hx|(y & _ & [Hxs|(ys & _ & [=])]%bind_inl)]%bind_inl.
  - exists x. split; [apply list_elem_of_here | done].
  - destruct (IH Hxs) as (x' & Hin & Hx'). exists x'.
    split; [by apply list_elem_of_further | done].
Qed.

(** The item the lookup settles on, given the items and their scores. *)
Lemma best_airport_is_first_maximum (keys : list Z) (items : list value) :
  items <> [] ->
  length keys = length items ->
  exists i k best,
    items !! i = Some best
    /\ keys !! i = Some k
    /\ seq_index 60 (map snd (sorted_desc (zip keys items))) 0 = inr best
    /\ (forall j k', keys !! j = Some k' -> (k' <= k)%Z)
    /\ (forall j k', j < i -> keys !! j = Some k' -> (k' < k)%Z).
Proof.
  intros Hitems Hlen.
  destruct (head_sorted_desc (zip keys items)) as (i & k & best & Hi & Hhead & Hmax & Hfirst).
  { destruct keys, items; cbn in *; congruence. }
  apply lookup_zip_with_Some in Hi as (k1 & x1 & [= <- <-] & Hk & Hx).
  exists i, k, best. split; [done|]. split; [done|]. split; [|split].
  - destruct (sorted_desc (zip keys items)) as [|entry sorted]; [discriminate Hhead|].
    cbn in Hhead. injection Hhead as ->. cbn [map snd]. apply seq_index_0_cons.
  - intros j k' Hj.
    destruct (lookup_lt_is_Some_2 items j) as [y Hy];
      [rewrite <- Hlen; by eapply lookup_lt_Some|].
    apply (Hmax j k' y). apply lookup_zip_with_Some. eauto.
  - intros j k' Hlt Hj.
    destruct (lookup_lt_is_Some_2 items j) as [y Hy];
      [rewrite <- Hlen; by eapply lookup_lt_Some|].
    apply (Hfirst j k' y Hlt). apply lookup_zip_with_Some. eauto.
Qed.

(** X5. For a location and a response in ASCII text: among the items of a
    non-empty "data" list that all get a score, get_airport_code settles on
    one with the highest score and, among those, on the one that comes
    first in the response; it returns the "skyId" of that item, or None
    when the item has none. *)
Theorem get_airport_code_takes_first_best
    (env : Env) (location : string) (d : list (string * value))
    (items : list value) (keys : list Z) :
  is_ascii location = true ->
  ascii_value (VList items) = true ->
  requests_get env location = inr (inr (VDict d)) ->
  dict_lookup d "data" = Some (VList items) ->
  items <> [] ->
  map_m (airport_score (str_strip (str_lower location))) items = inr keys ->
  exists i k best,
    items !! i = Some best
    /\ keys !! i = Some k
    /\ (forall j k', keys !! j = Some k' -> (k' <= k)%Z)
    /\ (forall j k', j < i -> keys !! j = Some k' -> (k' < k)%Z)
    /\ get_airport_code env location = get 61 best "skyId" VNone.
Proof.
  intros _ _ Hrequest Hdata Hitems Hkeys.
  destruct (map_m_returns _ _ _ Hkeys) as [Hlen _].
  destruct (best_airport_is_first_maximum keys items Hitems Hlen)
    as (i & k & best & Hi & Hk & Hbest & Hmax & Hfirst).
  exists i, k, best. do 4 (split; [done|]).
  unfold get_airport_code. rewrite Hrequest. cbn [bind get ret]. rewrite Hdata.
  unfold default. cbn [from_option id]. destruct items as [|item items']; [done|].
  cbn [truthy negb iter ret bind]. rewrite Hkeys. cbn [bind]. rewrite Hbest. cbn [bind].
  by destruct (get 61 best "skyId" VNone).
Qed.

Lemma get_airport_code_takes_first_best_witness :
  exists i k best,
    [VDict [("skyId", VStr "LCY"); ("presentation", VDict [("title", VStr "London City")])];
     VDict [("skyId", VStr "LHR"); ("presentation", VDict [("title", VStr "London Heathrow")]);
            ("navigation", VDict [("entityType", VStr "AIRPORT")])];
     VDict [("skyId", VStr "LGW"); ("presentation", VDict [("title", VStr "London Gatwick")]);
            ("navigation", VDict [("entityType", VStr "AIRPORT")])]] !! i = Some best
    /\ [5; 7; 7]%Z !! i = Some k
    /\ (forall j k', [5; 7; 7]%Z !! j = Some k' -> (k' <= k)%Z)
    /\ (forall j k', j < i -> [5; 7; 7]%Z !! j = Some k' -> (k' < k)%Z)
    /\ get_airport_code
         {| requests_get := fun _ =>
              ret (ret (VDict [("data", VList [
                VDict [("skyId", VStr "LCY");
                       ("presentation", VDict [("title", VStr "London City")])];
                VDict [("skyId", VStr "LHR");
                       ("presentation", VDict [("title", VStr "London Heathrow")]);
                       ("navigation", VDict [("entityType", VStr "AIRPORT")])];
                VDict [("skyId", VStr "LGW");
                       ("presentation", VDict [("title", VStr "London Gatwick")]);
                       ("navigation", VDict [("entityType", VStr "AIRPORT")])]])]));
            flight_offers_search_get := fun _ => ret (VList []) |}
         " London "
       = get 61 best "skyId" VNone.
Proof.
  apply (get_airport_code_takes_first_best
           {| requests_get := fun _ =>
                ret (ret (VDict [("data", VList [
                  VDict [("skyId", VStr "LCY");
                         ("presentation", VDict [("title", VStr "London City")])];
                  VDict [("skyId", VStr "LHR");
                         ("presentation", VDict [("title", VStr "London Heathrow")]);
                         ("navigation", VDict [("entityType", VStr "AIRPORT")])];
                  VDict [("skyId", VStr "LGW");
                         ("presentation", VDict [("title", VStr "London Gatwick")]);
                         ("navigation", VDict [("entityType", VStr "AIRPORT")])]])]));
              flight_offers_search_get := fun _ => ret (VList []) |}
           " London "
           [("data", VList [
              VDict [("skyId", VStr "LCY");
                     ("presentation", VDict [("title", VStr "London City")])];
              VDict [("skyId", VStr "LHR");
                     ("presentation", VDict [("title", VStr "London Heathrow")]);
                     ("navigation", VDict [("entityType", VStr "AIRPORT")])];
              VDict [("skyId", VStr "LGW");
                     ("presentation", VDict [("title", VStr "London Gatwick")]);
                     ("navigation", VDict [("entityType", VStr "AIRPORT")])]])]).
  - reflexivity.
  - reflexivity.
  - reflexivity.
  - reflexivity.
  - discriminate.
  - reflexivity.
Defined.

(** Two airports with the same score: the first of the response wins. *)
Example get_airport_code_tie :
  get_airport_code
    {| requests_get := fun _ =>
         ret (ret (VDict [("data", VList [VDict [("skyId", VStr "A1")];
                                          VDict [("skyId", VStr "A2")]])]));
       flight_offers_search_get := fun _ => ret (VList []) |}
    "Oslo"
  = inr (VStr "A1").
Proof. reflexivity. Qed.

Lemma airport_score_needs_dict (query : string) (item : value) (score : Z) :
  airport_score query item = inr score -> exists d, item = VDict d.
Proof.
  unfold airport_score. intros (presentation & Hget & _)%bind_returns.
  destruct item; try discriminate Hget. by eexists.
Qed.

Lemma iter_of_true_object (line : nat) (data : value) (items : list value) :
  truthy data = true -> iter line data = inr items -> items <> [].
Proof.
  destruct data as [| | |s|l|d]; cbn; try discriminate.
  - destruct s; [discriminate|]. by intros _ [= <-].
  - destruct l; [discriminate|]. by intros _ [= <-].
  - destruct d; [discriminate|]. by intros _ [= <-].
Qed.

(** X6. Once the airport search has answered, get_airport_code lets only
    four exceptions out: AttributeError of line 44, 45 or 55, raised by the
    score of an item that has not the expected shape, and TypeError of
    line 60, raised when "data" cannot be iterated.  Picking the first
    sorted item on line 60 and reading its "skyId" on line 61 never raise. *)
Theorem get_airport_code_raises_only
    (env : Env) (location : string) (response : M value) (e : exn) :
  requests_get env location = inr response ->
  get_airport_code env location = inl e ->
  e ∈ [AttributeError 44; AttributeError 45; AttributeError 55; TypeError 60].
Proof.
  intros Hrequest. unfold get_airport_code. rewrite Hrequest. cbn [bind].
  destruct (bind response _) as [e'|data]; [discriminate|].
  destruct (truthy data) eqn:Htruthy; [|discriminate]. cbn [negb].
  destruct (iter 60 data) as [e'|items] eqn:Hiter; cbn [bind].
  { intros [= <-]. apply iter_raises in Hiter as ->.
    do 3 apply list_elem_of_further. apply list_elem_of_here. }
  pose proof (iter_of_true_object 60 data items Htruthy Hiter) as Hitems.
  destruct (map_m _ items) as [e'|keys] eqn:Hkeys; cbn [bind].
  { intros [= <-]. apply map_m_raises in Hkeys as (item & _ & Hscore).
    pose proof (airport_score_cases (str_strip (str_lower location)) item) as Hcases.
    rewrite Hscore in Hcases.
    change (e' ∈ [AttributeError 44; AttributeError 45; AttributeError 55]
                 ++ [TypeError 60]).
    apply elem_of_app. by left. }
  destruct (map_m_returns _ _ _ Hkeys) as [Hlen Hscored].
  destruct (best_airport_is_first_maximum keys items Hitems Hlen)
    as (i & k & best & Hi & Hk & -> & _). cbn [bind].
  destruct (Hscored i best Hi) as (k' & _ & Hscore).
  apply airport_score_needs_dict in Hscore as [d ->]. discriminate.
Qed.

Lemma get_airport_code_raises_only_witness :
  AttributeError 44
    ∈ [AttributeError 44; AttributeError 45; AttributeError 55; TypeError 60].
Proof.
  apply (get_airport_code_raises_only
           {| requests_get := fun _ => ret (ret (VDict [("data", VList [VStr "LHR"])]));
              flight_offers_search_get := fun _ => ret (VList []) |}
           "London" (ret (VDict [("data", VList [VStr "LHR"])]))); reflexivity.
Defined.

(** *** The summaries of the offers *)

Lemma for_each_appends {A B} (xs : list A) (body : list B -> A -> M (list B)) :
  (forall acc x acc', body acc x = inr acc' -> exists y, acc' = acc ++ [y]) ->
  forall acc r,
    for_each xs body acc = inr r -> exists ys, r = acc ++ ys /\ length ys = length xs.
Proof.
  intros Hbody. induction xs as [|x xs IH]; intros acc r; cbn [for_each].
  - intros [= <-]. exists []. by rewrite app_nil_r.
  - intros (acc' & Hx & Hxs)%bind_returns.
    destruct (Hbody acc x acc' Hx) as [y ->].
    destruct (IH _ _ Hxs) as (ys & -> & Hlen).
    exists (y :: ys). rewrite <- app_assoc. split; [done|]. cbn. by rewrite Hlen.
Qed.

Lemma for_each_raises {A S} (xs : list A) (body : S -> A -> M S) (acc : S) (e : exn) :
  for_each xs body acc = inl e -> exists acc' x, x ∈ xs /\ body acc' x = inl e.
Proof.
  revert acc. induction xs as [|x xs IH]; intros acc; cbn [for_each]; [discriminate|].
  intros [Hx|(acc' & _ & Hxs)]%bind_inl.
  - exists acc, x. split; [apply list_elem_of_here | done].
  - destruct (IH _ Hxs) as (acc'' & x' & Hin & Hx'). exists acc'', x'.
    split; [by apply list_elem_of_further | done].
Qed.

Lemma try_except_ResponseError_raises {A} (body : M A) (handler : string -> M A) e :
  (forall str, exists x, handler str = inr x) ->
  try_except_ResponseError body handler = inl e -> body = inl e.
Proof.
  intros Hhandler. unfold try_except_ResponseError.
  destruct body as [[str| | | | | | |]|x]; try done.
  destruct (Hhandler str) as [x ->]. discriminate.
Qed.

(** An exception out of a chain of subscripts and [.get] calls is the one
    of the first step that raised, on the line of that step. *)
Ltac raised_on_its_line H :=
  repeat (apply bind_inl in H as [H|(? & _ & H)]);
  first [apply getitem_line in H | apply getindex_line in H | apply get_line in H
        | discriminate H];
  eexists; (split; [exact H | lia]).

(** X7. When the backend returns a list of offers and search_flights
    returns, the result carries one summary per offer: "flights" has the
    length of the list of offers and "num_results" is that length; no
    offer is dropped or counted twice. *)
Theorem search_flights_counts_every_offer
    (env : Env) (origin destination departure_date : string) (num_adults : Z)
    (origin_code destination_code : value) (offers : list value) (result : value) :
  get_airport_code env origin = inr origin_code ->
  get_airport_code env destination = inr destination_code ->
  flight_offers_search_get env
    [("originLocationCode", origin_code);
     ("destinationLocationCode", destination_code);
     ("departureDate", VStr departure_date);
     ("adults", VInt num_adults);
     ("max", VInt 5)] = inr (VList offers) ->
  search_flights env origin destination departure_date num_adults = inr result ->
  exists flights,
    length flights = length offers
    /\ result = VDict [("origin", origin_code);
                       ("destination", destination_code);
                       ("departure_date", VStr departure_date);
                       ("num_adults", VInt num_adults);
                       ("num_results", VInt (Z.of_nat (length offers)));
                       ("flights", VList flights)].
Proof.
  intros Horigin Hdestination Hbackend.
  unfold search_flights. rewrite Horigin, Hdestination. cbn [bind].
  rewrite Hbackend. cbn [bind iter ret try_except_ResponseError].
  match goal with
  | |- context [for_each offers ?body []] =>
      destruct (for_each offers body []) as [e|flights] eqn:Hloop
  end; cbn [bind ret try_except_ResponseError].
  { apply for_each_raises in Hloop as (acc & offer & _ & Hbody).
    assert (raised_between 82 94 e) as (line & Hline & _) by raised_on_its_line Hbody.
    destruct e; discriminate. }
  intros [= <-].
  apply for_each_appends in Hloop as (ys & -> & Hlen).
  - exists ys. cbn [app]. by rewrite Hlen.
  - intros acc offer acc' Hbody.
    repeat (apply bind_returns in Hbody as (? & _ & Hbody)).
    injection Hbody as <-. by eexists.
Qed.

Lemma search_flights_counts_every_offer_witness :
  exists flights,
    length flights = length [sample_offer; sample_offer]
    /\ search_flights (env_backend_offers [sample_offer; sample_offer])
                      "London" " Paris " "2025-06-01" 2
       = inr (VDict [("origin", VStr "LHR");
                     ("destination", VStr "CDG");
                     ("departure_date", VStr "2025-06-01");
                     ("num_adults", VInt 2);
                     ("num_results", VInt 2);
                     ("flights", VList flights)]).
Proof.
  destruct (search_flights (env_backend_offers [sample_offer; sample_offer])
                           "London" " Paris " "2025-06-01" 2) as [e|result] eqn:Hresult;
    [discriminate Hresult|].
  destruct (search_flights_counts_every_offer
              (env_backend_offers [sample_offer; sample_offer])
              "London" " Paris " "2025-06-01" 2 (VStr "LHR") (VStr "CDG")
              [sample_offer; sample_offer] result eq_refl eq_refl eq_refl Hresult)
    as (flights & Hlen & ->).
  exists flights. split; [exact Hlen | reflexivity].
Defined.

(** X8. When the backend returns normally, the handler of the two tools
    has nothing to catch: an exception that leaves search_flights was
    raised on lines 82 to 94 by an offer without the expected shape (or by
    a result that is no list), one that leaves get_cheapest_flight on lines
    134 to 146. *)
Theorem malformed_offer_exception_escapes
    (env : Env) (origin destination departure_date : string) (num_adults : Z)
    (origin_code destination_code offers : value) (e : exn) :
  get_airport_code env origin = inr origin_code ->
  get_airport_code env destination = inr destination_code ->
  (flight_offers_search_get env
     [("originLocationCode", origin_code);
      ("destinationLocationCode", destination_code);
      ("departureDate", VStr departure_date);
      ("adults", VInt num_adults);
      ("max", VInt 5)] = inr offers ->
   search_flights env origin destination departure_date num_adults = inl e ->
   raised_between 82 94 e)
  /\
  (flight_offers_search_get env
     [("originLocationCode", origin_code);
      ("destinationLocationCode", destination_code);
      ("max", VInt 1);
      ("sort", VStr "price")] = inr offers ->
   get_cheapest_flight env origin destination = inl e ->
   raised_between 134 146 e).
Proof.
  intros Horigin Hdestination. split; intros Hbackend.
  - unfold search_flights. rewrite Horigin, Hdestination. cbn [bind].
    rewrite Hbackend. cbn [bind].
    intros H%try_except_ResponseError_raises; [|by eexists].
    apply bind_inl in H as [H|(offer_list & _ & H)].
    { apply iter_raises in H as ->. exists 82. split; [done | lia]. }
    apply bind_inl in H as [H|(? & _ & [=])].
    apply for_each_raises in H as (acc & offer & _ & H).
    raised_on_its_line H.
  - unfold get_cheapest_flight. rewrite Horigin, Hdestination. cbn [bind].
    rewrite Hbackend. cbn [bind].
    intros H%try_except_ResponseError_raises; [|by eexists].
    destruct (negb (truthy offers)); [discriminate H|].
    raised_on_its_line H.
Qed.

Lemma malformed_offer_exception_escapes_witness :
  raised_between 134 146 (IndexError 135).
Proof.
  apply (malformed_offer_exception_escapes
           (env_backend_offers [VDict [("itineraries", VList [])]])
           "London" " Paris " "2025-06-01" 2 (VStr "LHR") (VStr "CDG")
           (VList [VDict [("itineraries", VList [])]]) (IndexError 135));
    reflexivity.
Defined.

Lemma getindex_0_cons line (x : value) (l : list value) :
  getindex line (VList (x :: l)) 0 = inr x.
Proof. apply seq_index_0_cons. Qed.

(** X9. The two tools summarise an offer the same way: when the search
    and the cheapest-flight request are answered with lists that start
    with the same offer and search_flights returns, get_cheapest_flight
    returns the first entry of its "flights". *)
Theorem cheapest_flight_is_first_search_summary
    (env : Env) (origin destination departure_date : string) (num_adults : Z)
    (origin_code destination_code offer : value) (rest rest' : list value)
    (result : value) :
  get_airport_code env origin = inr origin_code ->
  get_airport_code env destination = inr destination_code ->
  flight_offers_search_get env
    [("originLocationCode", origin_code);
     ("destinationLocationCode", destination_code);
     ("departureDate", VStr departure_date);
     ("adults", VInt num_adults);
     ("max", VInt 5)] = inr (VList (offer :: rest)) ->
  flight_offers_search_get env
    [("originLocationCode", origin_code);
     ("destinationLocationCode", destination_code);
     ("max", VInt 1);
     ("sort", VStr "price")] = inr (VList (offer :: rest')) ->
  search_flights env origin destination departure_date num_adults = inr result ->
  exists summary others,
    getitem 0 result "flights" = inr (VList (summary :: others))
    /\ get_cheapest_flight env origin destination = inr summary.
Proof.
  intros Horigin Hdestination Hsearch Hcheapest.
  unfold search_flights, get_cheapest_flight. rewrite Horigin, Hdestination. cbn [bind].
  rewrite Hsearch, Hcheapest. cbn [bind iter ret truthy negb getindex].
  rewrite seq_index_0_cons. cbn [bind].
  match goal with
  | |- context [for_each (offer :: rest) ?body []] =>
      destruct (for_each (offer :: rest) body []) as [e|flights] eqn:Hloop
  end; cbn [bind ret try_except_ResponseError].
  { apply for_each_raises in Hloop as (acc & bad & _ & Hbody).
    assert (raised_between 82 94 e) as (line & Hline & _) by raised_on_its_line Hbody.
    destruct e; discriminate. }
  intros [= <-]. cbn [for_each] in Hloop.
  apply bind_returns in Hloop as (first & Hfirst & Hrest).
  apply for_each_appends in Hrest as (others & -> & _).
  2: { intros acc x acc' Hbody.
       repeat (apply bind_returns in Hbody as (? & _ & Hbody)).
       injection Hbody as <-. by eexists. }
  repeat (apply bind_returns in Hfirst as (? & ? & Hfirst)).
  injection Hfirst as <-.
  repeat match goal with
  | H : getitem ?line _ _ = inr _ |- _ =>
      lazymatch line with 0 => fail | _ => apply (getitem_any_line _ 0) in H end
  | H : getindex ?line _ _ = inr _ |- _ =>
      lazymatch line with 0 => fail | _ => apply (getindex_any_line _ 0) in H end
  | H : get ?line _ _ _ = inr _ |- _ =>
      lazymatch line with 0 => fail | _ => apply (get_any_line _ 0) in H end
  end.
  repeat match goal with
  | H1 : ?t = inr ?a, H2 : ?t = inr ?b |- _ =>
      assert (b = a) by congruence; first [subst b | idtac]; clear H2
  end.
  repeat match goal with
  | H : getitem _ ?v ?k = inr _ |- context [getitem ?line ?v ?k] =>
      rewrite (getitem_any_line _ line _ _ _ H); cbn [bind]
  | H : getindex _ ?v ?i = inr _ |- context [getindex ?line ?v ?i] =>
      rewrite (getindex_any_line _ line _ _ _ H); cbn [bind]
  | H : get _ ?v ?k ?d = inr _ |- context [get ?line ?v ?k ?d] =>
      rewrite (get_any_line _ line _ _ _ _ H); cbn [bind]
  end.
  eexists _, others. split; reflexivity.
Qed.

Lemma cheapest_flight_is_first_search_summary_witness :
  exists summary others,
    getitem 0 (VDict [("origin", VStr "LHR");
                      ("destination", VStr "CDG");
                      ("departure_date", VStr "2025-06-01");
                      ("num_adults", VInt 2);
                      ("num_results", VInt 1);
                      ("flights", VList [
                         VDict [("airline", VStr "AF");
                                ("from", VStr "LHR");
                                ("to", VStr "CDG");
                                ("departure_time", VStr "2025-06-01T07:00:00");
                                ("arrival_time", VStr "2025-06-01T09:20:00");
                                ("duration", VStr "PT1H20M");
                                ("total_price", VStr "123.45");
                                ("currency_code", VStr "EUR")]])])
            "flights"
    = inr (VList (summary :: others))
    /\ get_cheapest_flight (env_backend_offers [sample_offer]) "London" " Paris "
       = inr summary.
Proof.
  apply (cheapest_flight_is_first_search_summary
           (env_backend_offers [sample_offer]) "London" " Paris " "2025-06-01" 2
           (VStr "LHR") (VStr "CDG") sample_offer [] []); reflexivity.
Defined.

(** X10. Of an offer the tools read the first itinerary and, of that, the
    first segment only: further itineraries and further segments change
    nothing in the result, so "to" and "arrival_time" are those of the
    first leg of the journey. *)
Theorem only_first_leg_is_summarised
    (env : Env) (origin destination : string)
    (segment duration price : value) (segments itineraries : list value) :
  get_cheapest_flight
    {| requests_get := requests_get env;
       flight_offers_search_get := fun _ =>
         ret (VList [VDict [("itineraries",
                             VList (VDict [("duration", duration);
                                           ("segments", VList (segment :: segments))]
                                      :: itineraries));
                            ("price", price)]]) |}
    origin destination
  = get_cheapest_flight
      {| requests_get := requests_get env;
         flight_offers_search_get := fun _ =>
           ret (VList [VDict [("itineraries",
                               VList [VDict [("duration", duration);
                                             ("segments", VList [segment])]]);
                              ("price", price)]]) |}
      origin destination.
Proof.
  unfold get_cheapest_flight.
  change (get_airport_code {| requests_get := requests_get env;
                              flight_offers_search_get := _ |})
    with (get_airport_code env).
  destruct (get_airport_code env origin) as [e|origin_code]; [reflexivity|].
  destruct (get_airport_code env destination) as [e|destination_code]; [reflexivity|].
  cbn [bind flight_offers_search_get ret truthy negb].
  repeat first
    [ rewrite getindex_0_cons
    | progress cbn [bind ret getitem dict_lookup String.eqb Ascii.eqb Bool.eqb] ].
  reflexivity.
Qed.

End FlightsBehaviour.

(** ** More on the chatbot module *)

Section ChatbotBehaviour.
Import Py Chatbot.
Local Open Scope list_scope.

(** *** Tool discovery *)

(** X11. load_mcp_tools prints its warning exactly when the discovery of
    some configured server raised: it prints nothing when every server
    answered, and whenever it prints, the list it returns is empty. *)
Theorem warning_exactly_on_failed_discovery (env : Env) :
  ((load_mcp_tools env).2 = []
   <-> forall server, server ∈ SERVERS.*1 -> exists found, discover env server = inr found)
  /\ ((load_mcp_tools env).2 <> [] -> (load_mcp_tools env).1 = []).
Proof.
  unfold load_mcp_tools, get_tools.
  destruct (map_m (fun server => discover env server.1) SERVERS) as [e|lists] eqn:Hall;
    cbn [bind ret snd fst].
  - split; [|done]. split; [discriminate|]. intros Hup.
    apply map_m_raises in Hall as (entry & Hin & Hfail).
    destruct (Hup entry.1) as [found Hfound]; [by apply list_elem_of_fmap_2|].
    congruence.
  - split; [|done]. split; [|done]. intros _ server Hserver.
    apply list_elem_of_fmap in Hserver as (entry & -> & Hentry).
    apply list_elem_of_lookup in Hentry as [i Hi].
    destruct (map_m_returns _ _ _ Hall) as [_ Hfound].
    destruct (Hfound i entry Hi) as (found & _ & ->). by exists found.
Qed.

(** Whatever discovery gave, the tool list starts with the two local
    tools, so the fallbacks of lines 132, 145 and 165-166 are never taken:
    the model is bound to the tools, the tool node exists, the chat node
    has the conditional edge and no direct edge to END. *)
Theorem graph_always_has_the_tool_node (env : Env) :
  tools env !! 0 = Some search_tool
  /\ tools env !! 1 = Some build_itinerary
  /\ llm_with_tools env = bind_tools env (tools env)
  /\ tool_node env = Some (ToolNode env (tools env))
  /\ nodes (graph env) !! "tools" = Some (ToolNode env (tools env))
  /\ edges (graph env) !! "chat_node" = Some (EdgeIf tools_condition)
  /\ edges (graph env) !! "tools" = Some (EdgeTo "chat_node").
Proof. repeat split. Qed.

(** *** Dispatch by name *)

(** X12. The tool node finds a tool by its name, and of several tools of
    one name it keeps the one listed last: a call whose arguments fit is
    passed to the backend of the last tool of its name, and when that
    backend returns, its answer is the content of the tool message - so a
    discovered tool that carries the name of a local tool takes the calls
    made under that name. *)
Theorem last_tool_of_a_name_serves_the_calls
    (env : Env) (call : ToolCall) (t : BaseTool) (content : string) (w : World) :
  last (filter (fun t => name t = call_name call) (tools env)) = Some t ->
  handle t <> BuildItinerary ->
  validation_error env t (call_args call) = None ->
  call_tool env t (call_args call) = inr content ->
  run_one env (tools env) call w
  = (inr (ToolMessage content (call_name call) (call_id call) None), w).
Proof.
  intros Hlast Hremote Hvalid Hanswer. apply run_one_backend. by exists t.
Qed.

Lemma last_tool_of_a_name_serves_the_calls_witness :
  run_one env_shadowed (tools env_shadowed)
          {| call_name := "build_itinerary"; call_args := VDict []; call_id := "call_1" |}
          (started [])
  = (inr (ToolMessage "result of build_itinerary" "build_itinerary" "call_1" None),
     started []).
Proof.
  apply (last_tool_of_a_name_serves_the_calls env_shadowed
           {| call_name := "build_itinerary"; call_args := VDict []; call_id := "call_1" |}
           {| name := "build_itinerary"; description := "Remote itinerary builder.";
              handle := McpTool "hotel" |}
           "result of build_itinerary" (started [])).
  - reflexivity.
  - discriminate.
  - reflexivity.
  - reflexivity.
Defined.

(** X13. A call of the local build_itinerary whose arguments fit asks the
    model once, with the full tool list - build_itinerary included - and
    the prompt as the only message.  When the model returns, the content of
    the tool message is [str()] of the message object it returned, run id
    included, and the tools requested in that response are not run; when
    the model raises, no tool message is made: the exception leaves the
    call. *)
Theorem build_itinerary_asks_the_model_once
    (env : Env) (call : ToolCall) (w : World) :
  call_name call = "build_itinerary" ->
  (forall t, t ∈ mcp_tools env -> name t <> "build_itinerary") ->
  validation_error env build_itinerary (call_args call) = None ->
  run_one env (tools env) call w
  = (match llm_invoke env (tools env)
             [HumanMessage (system_prompt env (call_args call)) None] with
     | inr response =>
         inr (ToolMessage
                (message_str env (length (model_calls w))
                             (AIMessage response.1 response.2 None))
                "build_itinerary" (call_id call) None)
     | inl e => inl e
     end,
     {| node_runs := node_runs w;
        model_calls :=
          model_calls w
          ++ [{| catalog := tools env;
                 input := [HumanMessage (system_prompt env (call_args call)) None] |}];
        checkpoints := checkpoints w |})
  /\ build_itinerary ∈ tools env.
Proof.
  intros Hname Hfresh Hvalid. split; [|apply list_elem_of_further, list_elem_of_here].
  rewrite run_one_run. unfold tool_named. rewrite Hname.
  assert (filter (fun t => name t = "build_itinerary") (tools env) = [build_itinerary])
    as ->.
  { unfold tools. rewrite filter_cons_False by discriminate.
    rewrite filter_cons_True by reflexivity. f_equal.
    apply elem_of_nil_inv. intros t [Ht Hin]%list_elem_of_filter. by apply (Hfresh t). }
  cbn [last]. rewrite Hvalid, invoke_tool_run. cbn [handle build_itinerary].
  unfold tool_message. rewrite Hname.
  by destruct (llm_invoke env (tools env) _).
Qed.

Lemma build_itinerary_asks_the_model_once_witness :
  run_one env_always_asks (tools env_always_asks)
          {| call_name := "build_itinerary";
             call_args := VDict [("destination", VStr "Paris")];
             call_id := "call_1" |}
          (started [])
  = (inr (ToolMessage "content='' id='run-0'" "build_itinerary" "call_1" None),
     {| node_runs := [];
        model_calls :=
          [{| catalog := tools env_always_asks;
              input := [HumanMessage "You are a Travel Orchestration Agent." None] |}];
        checkpoints := [] |}).
Proof.
  apply (build_itinerary_asks_the_model_once env_always_asks
           {| call_name := "build_itinerary";
              call_args := VDict [("destination", VStr "Paris")];
              call_id := "call_1" |}
           (started [])).
  - reflexivity.
  - intros t Hin. vm_compute in Hin.
    repeat (apply elem_of_cons in Hin as [->|Hin]; [discriminate|]).
    by apply elem_of_nil in Hin.
  - reflexivity.
Defined.

(** A model that raises inside build_itinerary ends the turn with its
    exception; the chat node had run, the tool node was running. *)
Example model_exception_in_build_itinerary_ends_the_turn :
  let env :=
    sample_env all_servers_up
      (fun _ messages =>
         match messages with
         | [HumanMessage "You are a Travel Orchestration Agent." None] =>
             raise (OtherError "rate limit")
         | _ => ret ("", [{| call_name := "build_itinerary";
                             call_args := VDict [("destination", VStr "Paris")];
                             call_id := "call_1" |}])
         end) in
  (chatbot env 25 "thread-1" [HumanMessage "Plan a trip to Paris" None] (started [])).1
  = inl (OtherError "rate limit")
  /\ node_runs (chatbot env 25 "thread-1" [HumanMessage "Plan a trip to Paris" None]
                        (started [])).2
     = ["chat_node"; "tools"].
Proof. cbn zeta. split; vm_compute; reflexivity. Qed.

(** *** Turns *)

(** X14. The chat node has no handler: when the model raises on what the
    thread holds merged with the new input, a turn with a step limit of at
    least 1 raises that exception after one run of the chat node, and the
    thread holds its earlier messages merged with the input by the
    reducer, saved before the model was asked - the earlier messages
    followed by the input when the input carries no ids. *)
Theorem model_exception_ends_the_turn
    (env : Env) (steps : nat) (tid : string) (input : list BaseMessage)
    (w : World) (e : exn) :
  0 < steps ->
  llm_invoke env (tools env) (add_messages (messages (get_state tid w)) input) = inl e ->
  (chatbot env steps tid input w).1 = inl e
  /\ node_runs (chatbot env steps tid input w).2 = node_runs w ++ ["chat_node"]
  /\ messages (get_state tid (chatbot env steps tid input w).2)
     = add_messages (messages (get_state tid w)) input
  /\ (without_ids input ->
      messages (get_state tid (chatbot env steps tid input w).2)
      = messages (get_state tid w) ++ input).
Proof.
  intros Hsteps Hraise. destruct steps as [|steps]; [lia|].
  rewrite chatbot_unfold, run_from_chat. cbn zeta.
  change (messages (apply_update (get_state tid w) input))
    with (add_messages (messages (get_state tid w)) input).
  rewrite Hraise. cbn [fst snd node_runs model_calls checkpoints].
  rewrite get_state_newest.
  split; [done|]. split; [done|]. split; [done|].
  intros Hids. cbn [messages apply_update]. by apply add_messages_without_ids.
Qed.

Lemma model_exception_ends_the_turn_witness :
  (chatbot (sample_env all_servers_up (fun _ _ => raise (OtherError "rate limit")))
           25 "thread-1" [HumanMessage "Hello" None] (started [])).1
  = inl (OtherError "rate limit").
Proof.
  apply (model_exception_ends_the_turn
           (sample_env all_servers_up (fun _ _ => raise (OtherError "rate limit")))
           25 "thread-1" [HumanMessage "Hello" None] (started [])
           (OtherError "rate limit")).
  - lia.
  - reflexivity.
Defined.

Lemma run_from_returns_answer env tid steps :
  forall current state w final,
    (current = END ->
     exists content, last (messages state) = Some (AIMessage content [] None)) ->
    (run_from (graph env) tid steps current state w).1 = inr final ->
    exists content, last (messages final) = Some (AIMessage content [] None).
Proof.
  induction steps as [|steps IH]; intros current state w final Hend; [discriminate|].
  destruct (decide (current = END)) as [->|Hrun].
  { rewrite run_from_END. intros [= <-]. by apply Hend. }
  destruct (nodes (graph env) !! current) as [action|] eqn:Hnode.
  2: { cbn [run_from]. apply String.eqb_neq in Hrun. rewrite Hrun, Hnode. discriminate. }
  apply graph_nodes in Hnode as [[-> ->]|[-> ->]].
  - rewrite run_from_chat. cbn zeta.
    destruct (llm_invoke env (tools env) (messages state)) as [e|[content calls]];
      [discriminate|].
    cbn [fst snd]. apply IH. intros Hto.
    destruct calls as [|call calls]; [|discriminate Hto].
    exists content. cbn [messages]. apply last_snoc.
  - rewrite run_from_tools.
    destruct (ToolNode env (tools env) state _) as [[e|update] w2]; [discriminate|].
    apply IH. discriminate.
Qed.

(** X15. A turn that returns, returns a final answer: the last message of
    the state it returns is an assistant message without tool calls, and
    that state is the one saved for the thread. *)
Theorem returned_state_ends_with_the_answer
    (env : Env) (steps : nat) (tid : string) (input : list BaseMessage)
    (w : World) (final : ChatState) :
  (chatbot env steps tid input w).1 = inr final ->
  (exists content, last (messages final) = Some (AIMessage content [] None))
  /\ get_state tid (chatbot env steps tid input w).2 = final.
Proof.
  intros Hreturn. split.
  - destruct steps as [|steps]; [discriminate Hreturn|].
    rewrite chatbot_unfold in Hreturn.
    eapply run_from_returns_answer; [|exact Hreturn]. discriminate.
  - destruct (chatbot_grown env steps tid input w)
      as (runs & mc & rows & (_ & _ & Hrows) & _ & Hown & Hlast & _).
    specialize (Hlast final Hreturn).
    by rewrite (get_state_after tid w _ _ {| thread_id := tid; values := final |}
                  Hrows Hown Hlast).
Qed.

Lemma returned_state_ends_with_the_answer_witness :
  get_state "thread-1"
    (chatbot env_asks_once 25 "thread-1" [HumanMessage "Plan a trip to Paris" None]
             (started [])).2
  = {| messages :=
         [HumanMessage "Plan a trip to Paris" None;
          AIMessage "" [call_hotels; call_weather] None;
          ToolMessage "result of search_hotels" "search_hotels" "call_A" None;
          ToolMessage "result of get_weather_forecast" "get_weather_forecast" "call_B"
                      None;
          AIMessage "Here is your itinerary." [] None] |}.
Proof.
  apply (returned_state_ends_with_the_answer env_asks_once 25 "thread-1"
           [HumanMessage "Plan a trip to Paris" None] (started [])).
  vm_compute. reflexivity.
Defined.

(** X16. A turn on one thread leaves every other thread as it was: the
    state of another thread is the same before and after the turn,
    whatever the outcome of the turn. *)
Theorem turn_leaves_other_threads_unchanged
    (env : Env) (steps : nat) (tid tid' : string) (input : list BaseMessage) (w : World) :
  tid <> tid' ->
  get_state tid' (chatbot env steps tid input w).2 = get_state tid' w.
Proof. apply chatbot_other_thread. Qed.

Lemma turn_leaves_other_threads_unchanged_witness :
  get_state "thread-2"
    (chatbot env_answers 25 "thread-1" [HumanMessage "Hello" None] (started [])).2
  = get_state "thread-2" (started []).
Proof.
  apply (turn_leaves_other_threads_unchanged env_answers 25 "thread-1" "thread-2").
  discriminate.
Defined.

(** *** The listing of threads *)

(** X17. retrieve_all_threads lists the thread ids of the saved rows and
    nothing else, each id once, however many rows a thread has. *)
Theorem retrieve_all_threads_lists_saved_threads (w : World) :
  NoDup (retrieve_all_threads w)
  /\ forall tid,
       tid ∈ retrieve_all_threads w
       <-> exists row, row ∈ checkpoints w /\ thread_id row = tid.
Proof.
  split; [apply NoDup_retrieve_all_threads|].
  intros tid. apply elem_of_retrieve_all_threads.
Qed.

(** X18. A turn on a thread that is already listed adds no thread and
    drops none: the listing after the turn holds the ids the listing
    before it held, each once - it is a permutation of it, the order of
    the listing being that of a Python set. *)
Theorem turn_on_listed_thread_adds_none
    (env : Env) (steps : nat) (tid : string) (input : list BaseMessage) (w : World) :
  tid ∈ retrieve_all_threads w ->
  retrieve_all_threads (chatbot env steps tid input w).2 ≡ₚ retrieve_all_threads w.
Proof.
  intros Hlisted.
  apply NoDup_Permutation; [apply NoDup_retrieve_all_threads..|].
  intros tid'. rewrite !elem_of_retrieve_all_threads.
  destruct (chatbot_grown env steps tid input w)
    as (runs & mc & rows & (_ & _ & Hrows) & _ & Hown & _).
  rewrite Hrows. setoid_rewrite elem_of_app. split.
  - intros (row & [Hold|Hnew] & Htid); [by exists row|].
    rewrite Forall_forall in Hown. rewrite (Hown row Hnew) in Htid. subst tid'.
    by apply elem_of_retrieve_all_threads.
  - intros (row & Hold & Htid). exists row. auto.
Qed.

Lemma turn_on_listed_thread_adds_none_witness :
  retrieve_all_threads
    (chatbot env_answers 25 "thread-1" [HumanMessage "And Rome?" None]
       (chatbot env_answers 25 "thread-1" [HumanMessage "Hello" None] (started [])).2).2
  ≡ₚ retrieve_all_threads
       (chatbot env_answers 25 "thread-1" [HumanMessage "Hello" None] (started [])).2.
Proof.
  apply (turn_on_listed_thread_adds_none env_answers 25 "thread-1"
           [HumanMessage "And Rome?" None]).
  vm_compute. apply list_elem_of_here.
Defined.

End ChatbotBehaviour.
